(** * automated_cookie_eval: a shallow embedding of the cookie and header tracker

    The script [automated_cookie_eval.py] drives a browser through a
    browser-automation library.  The embedding keeps the script's own code
    (string tests, the header-size sum, the logger's console filter, the
    cookie rewriting, the login handler, the scheduler of the browsing loop)
    and represents the browser as an oracle: every call into the browser is
    recorded in a trace, tagged with the source line that issues it, and its
    result (a value or a raised exception) is read from an environment record.

    Conventions.
    - A Python [str] is a [string] whose characters are the code points
      below 256; [utf8_len] and [lower] are exact on that range.
    - Python integers are [Z]; clock readings ([time.time()]) are [Z] ticks
      of an arbitrary unit, the configured intervals use the same unit.
    - Dictionaries (cookies, header mappings) are [gmap string value].
    - An exception is represented by its message ([str(e)]); only calls into
      the browser, dictionary lookups, list indexing and [random.randint]
      raise: [log_message], [print] and [asyncio.sleep] always return.
    - The event listeners ([handle_new_page], [log_response_status],
      [log_request_headers]) run interleaved with the loop and are not part
      of the embedding; what a one-shot listener captured is an oracle field. *)

From Stdlib Require Import ZArith Lia Ascii String List.
From stdpp Require Import base option list strings gmap fin_maps pretty.

Open Scope Z_scope.

(** ** Python strings *)

Definition nl : string := String "010"%char EmptyString.

(** [s.startswith(p)] *)
Fixpoint startswith (s p : string) {struct p} : bool :=
  match p, s with
  | EmptyString, _ => true
  | String _ _, EmptyString => false
  | String b p', String a s' => if Ascii.eqb a b then startswith s' p' else false
  end.

(** [needle in hay] on strings *)
Fixpoint contains (needle hay : string) : bool :=
  startswith hay needle ||
  match hay with
  | EmptyString => false
  | String _ hay' => contains needle hay'
  end.

Fixpoint drop_chars (n : nat) (s : string) : string :=
  match n, s with
  | O, _ => s
  | S _, EmptyString => EmptyString
  | S n', String _ s' => drop_chars n' s'
  end.

(** [s.split(sep, 1)[1]]: the text after the leftmost occurrence of [sep];
    [None] stands for the [IndexError] raised when [sep] does not occur. *)
Fixpoint after_first (sep s : string) : option string :=
  if startswith s sep then Some (drop_chars (String.length sep) s)
  else match s with
       | EmptyString => None
       | String _ s' => after_first sep s'
       end.

(** [s.split("\n")[0]] *)
Fixpoint first_line (s : string) : string :=
  match s with
  | EmptyString => EmptyString
  | String a s' => if Ascii.eqb a "010"%char then EmptyString else String a (first_line s')
  end.

(** [str.lower()] on code points below 256: A-Z and the capital letters
    U+00C0..U+00DE other than the multiplication sign U+00D7 move up by 32. *)
Definition lower_char (a : ascii) : ascii :=
  let n := N_of_ascii a in
  if ((65 <=? n) && (n <=? 90) || (192 <=? n) && (n <=? 222) && negb (n =? 215))%N
  then ascii_of_N (n + 32) else a.

Fixpoint lower (s : string) : string :=
  match s with
  | EmptyString => EmptyString
  | String a s' => String (lower_char a) (lower s')
  end.

(** [s.lstrip('/')] *)
Fixpoint lstrip_slash (s : string) : string :=
  match s with
  | String a s' => if Ascii.eqb a "/"%char then lstrip_slash s' else s
  | EmptyString => EmptyString
  end.

(** [s.rstrip('/')] *)
Fixpoint rstrip_slash (s : string) : string :=
  match s with
  | EmptyString => EmptyString
  | String a s' =>
      match rstrip_slash s' with
      | EmptyString => if Ascii.eqb a "/"%char then EmptyString else String a EmptyString
      | r => String a r
      end
  end.

(** [len(s.encode('utf-8'))]: one byte below U+0080, two up to U+00FF. *)
Fixpoint utf8_len (s : string) : Z :=
  match s with
  | EmptyString => 0
  | String a s' => (if (N_of_ascii a <? 128)%N then 1 else 2) + utf8_len s'
  end.

Fixpoint slashes (k : nat) : string :=
  match k with
  | O => EmptyString
  | S k' => String "/"%char (slashes k')
  end.

(** ** Values, cookies and header mappings *)

Inductive value :=
| VStr (s : string)
| VInt (z : Z)
| VBool (b : bool).

Global Instance value_eq_dec : EqDecision value.
Proof. solve_decision. Defined.

(** [str(v)] *)
Definition py_str (v : value) : string :=
  match v with
  | VStr s => s
  | VInt z => pretty z
  | VBool true => "True"
  | VBool false => "False"
  end.

(** [v == w]: booleans compare as the integers 0 and 1. *)
Definition num_of (v : value) : option Z :=
  match v with
  | VStr _ => None
  | VInt z => Some z
  | VBool b => Some (if b then 1 else 0)
  end.

Definition py_eq (v w : value) : bool :=
  match v, w with
  | VStr a, VStr b => bool_decide (a = b)
  | _, _ =>
      match num_of v, num_of w with
      | Some a, Some b => a =? b
      | _, _ => false
      end
  end.

Abbreviation cookie := (gmap string value).
Abbreviation headers := (gmap string value).

(** [c == d] on dictionaries: same keys, pairwise equal values. *)
Definition dict_eq (c d : gmap string value) : bool :=
  bool_decide (dom c = dom d) &&
  forallb (fun kv => match d !! kv.1 with
                     | Some w => py_eq kv.2 w
                     | None => false
                     end) (map_to_list c).

(** ** calculate_header_size (lines 40-55) *)

Definition calculate_header_size (hs : option headers) : Z :=
  let total_size := 0 in
  match hs with
  | None => total_size
  | Some h =>
      if bool_decide (h = ∅) then total_size
      else
        let total_size :=
          map_fold (fun key v total_size =>
                      let total_size :=
                        total_size + (utf8_len key + utf8_len (py_str v) + 2) in
                      total_size + 2) total_size h in
        total_size + 2
  end.

(** ** log_message (lines 57-86) *)

Record log_state := {
  log_file : list string;   (* the chunks appended to the log file *)
  console : list string     (* the lines printed *)
}.

Definition url_indicators : list string :=
  [ "Navigating to "; "Returning to starting page: "; "Current URL: ";
    "Clicking link: "; "Starting automated browsing at " ].

Definition complete_marker : string := "==== BROWSING SESSION COMPLETE ====".

(** The inner [for indicator in url_indicators: ... break] loop: what is
    printed for the first indicator that occurs in the message. *)
Fixpoint print_first_indicator (timestamp message : string)
    (indicators : list string) : list string :=
  match indicators with
  | [] => []
  | indicator :: rest =>
      if contains indicator message then
        match after_first indicator message with
        | Some tail_ =>
            let url_part := first_line tail_ in
            [ "[" +:+ timestamp +:+ "] " +:+ indicator +:+ url_part ]
        | None => []
        end
      else print_first_indicator timestamp message rest
  end.

Definition log_message (timestamp message : string) (st : log_state) : log_state :=
  let log_entry := "[" +:+ timestamp +:+ "] " +:+ message in
  let file' := log_file st ++ [log_entry +:+ nl] in
  if existsb (fun indicator => contains indicator message) url_indicators then
    {| log_file := file';
       console := console st ++ print_first_indicator timestamp message url_indicators |}
  else if contains complete_marker message || contains "Starting " message then
    {| log_file := file'; console := console st ++ [log_entry] |}
  else
    {| log_file := file'; console := console st |}.

(** ** Browser calls, traces and the effect monad *)

(** The calls the script makes into the browser-automation library. *)
Inductive op :=
| Cookies                                   (* context.cookies() *)
| ClearCookies                              (* context.clear_cookies() *)
| AddCookies (cs : list cookie)             (* context.add_cookies(cs) *)
| Goto (u : string)                         (* page.goto(u) *)
| Reload (timeout : option Z) (wait_until : option string)
| WaitForLoadState (state : string) (timeout : option Z)
| WaitForFunction (expression : string) (timeout : Z)
| IsClosed                                  (* page.is_closed() *)
| QuerySelectorAll (selector : string)
| QuerySelector (selector : string)
| IsVisible (el : nat)
| Click (el : nat)
| Fill (el : nat) (text : string)
| TextContent (el : nat)
| GetAttribute (el : nat) (attribute : string)
| Once (event_name handler : string).       (* page.once(event_name, handler) *)

Inductive event :=
| ELog (message : string)                   (* log_message(log_file, message) *)
| EPrint (text : string)                    (* print(text) *)
| ESleep (seconds : Z)                      (* await asyncio.sleep(seconds) *)
| ECall (line : N) (o : op).              (* a browser call and its source line *)

Inductive outcome (A : Type) :=
| Ok (a : A)
| Raise (e : string).
Arguments Ok {A} a.
Arguments Raise {A} e.

(** A computation yields the trace it produced and either a value or the
    exception that escaped it. *)
Definition M (A : Type) : Type := (list event * outcome A)%type.

Global Instance M_ret : MRet M := fun A a => ([], Ok a).

Global Instance M_bind : MBind M := fun A B f m =>
  match m with
  | (tr, Ok a) => let '(tr', r) := f a in (tr ++ tr', r)
  | (tr, Raise e) => (tr, Raise e)
  end.

(** [try: body except Exception as e: handler(e)] *)
Definition try_ {A} (body : M A) (handler : string -> M A) : M A :=
  match body with
  | (tr, Raise e) => let '(tr', r) := handler e in (tr ++ tr', r)
  | (tr, Ok a) => (tr, Ok a)
  end.

Definition raise_ {A} (e : string) : M A := ([], Raise e).
Definition call {A} (line : N) (o : op) (result : outcome A) : M A :=
  ([ECall line o], result).
Definition log (message : string) : M unit := ([ELog message], Ok tt).
Definition print (text : string) : M unit := ([EPrint text], Ok tt).
Definition sleep (seconds : Z) : M unit := ([ESleep seconds], Ok tt).

Definition trace {A} (m : M A) : list event := fst m.
Definition result {A} (m : M A) : outcome A := snd m.

(** An ElementHandle: its identity and what the browser answers on it. *)
Record element := {
  el_id : nat;
  el_is_visible : outcome bool;
  el_click : outcome unit;
  el_fill : string -> outcome unit;
  el_text_content : outcome (option string);
  el_href : outcome (option string)         (* get_attribute('href') *)
}.

(** [d[key]], raising [KeyError] *)
Definition getitem (d : gmap string value) (key : string) : M value :=
  match d !! key with
  | Some v => mret v
  | None => raise_ ("'" +:+ key +:+ "'")
  end.

Definition nonempty (s : string) : bool :=
  match s with
  | EmptyString => false
  | String _ _ => true
  end.

(** ** modify_auth_cookies (lines 378-426) *)

Record modify_env := {
  me_cookies : outcome (list cookie);            (* line 380 *)
  me_clear_cookies : outcome unit;               (* line 402 *)
  me_add_cookies : list cookie -> outcome unit;  (* lines 411 and 414 *)
  me_reload : outcome unit                       (* line 420 *)
}.

(** The loop of lines 387-396. *)
Fixpoint collect_modified (all_cookies : list cookie) : M (list cookie) :=
  match all_cookies with
  | [] => mret []
  | c :: rest =>
      match c !! "expires" with
      | Some _ =>
          let modified_cookie := <["expires" := VInt 0]> c in
          name ← getitem c "name";
          log ("Reset 'xxpires' for cookie: " +:+ py_str name);;
          modified_cookies ← collect_modified rest;
          mret (modified_cookie :: modified_cookies)
      | None => collect_modified rest
      end
  end.

(** [[cookie['name'] for cookie in modified_cookies]] *)
Fixpoint cookie_names (cs : list cookie) : M (list value) :=
  match cs with
  | [] => mret []
  | c :: rest =>
      name ← getitem c "name";
      names ← cookie_names rest;
      mret (name :: names)
  end.

(** [x in names] *)
Definition py_in (x : value) (names : list value) : bool :=
  existsb (py_eq x) names.

(** [[cookie for cookie in all_cookies if cookie['name'] not in names]] *)
Fixpoint keep_originals (names : list value) (all_cookies : list cookie)
  : M (list cookie) :=
  match all_cookies with
  | [] => mret []
  | c :: rest =>
      name ← getitem c "name";
      kept ← keep_originals names rest;
      mret (if py_in name names then kept else c :: kept)
  end.

Definition modify_auth_cookies (env : modify_env) : M unit :=
  all_cookies ← call 380 Cookies (me_cookies env);
  log (nl +:+ "==== MODIFYING AUTH COOKIES ====");;
  modified_cookies ← collect_modified all_cookies;
  match modified_cookies with
  | _ :: _ =>
      try_
        (call 402 ClearCookies (me_clear_cookies env);;
         cookie_names_to_modify ← cookie_names modified_cookies;
         original_cookies_to_keep ← keep_originals cookie_names_to_modify all_cookies;
         match original_cookies_to_keep with
         | _ :: _ =>
             call 411 (AddCookies original_cookies_to_keep)
                  (me_add_cookies env original_cookies_to_keep)
         | [] => mret tt
         end;;
         call 414 (AddCookies modified_cookies) (me_add_cookies env modified_cookies);;
         log ("Successfully modified " +:+ pretty (length modified_cookies)
              +:+ " auth cookies");;
         try_
           (log "Reloading page to apply cookie changes";;
            call 420 (Reload (Some 30000) (Some "domcontentloaded")) (me_reload env))
           (fun reload_error =>
              log ("Error during reload after cookie modification: " +:+ reload_error)))
        (fun e => log ("Error modifying auth cookies: " +:+ e))
  | [] => log "No auth cookies found to modify"
  end.

(** The cookies handed back to the context by one run: the arguments of the
    [add_cookies] calls of the trace, in order. *)
Fixpoint readded (tr : list event) : list cookie :=
  match tr with
  | [] => []
  | ECall _ (AddCookies cs) :: tr' => cs ++ readded tr'
  | _ :: tr' => readded tr'
  end.

(** ** handle_cognito_login (lines 207-357) *)

Record credentials := {
  COGNITO_USERNAME : string;
  COGNITO_PASSWORD : string
}.

Record login_env := {
  le_wait_load : outcome unit;                 (* line 211 *)
  le_url : string;                             (* page.url before the submit click *)
  le_is_closed : bool;                         (* line 218 *)
  le_query_selector_all : string -> outcome (list element);   (* line 238 *)
  le_wait_function : outcome unit;             (* line 302 *)
  le_url_after : string;                       (* page.url after the submit click *)
  le_wait_load_after : outcome unit;           (* line 312 *)
  le_query_selector : outcome (option element) (* line 331 *)
}.

Definition dq : string := String "034"%char EmptyString.

Definition username_selectors : list string :=
  [ "#signInFormUsername"; "input[name=" +:+ dq +:+ "username" +:+ dq +:+ "]" ].
Definition password_selectors : list string :=
  [ "#signInFormPassword"; "input[type=" +:+ dq +:+ "password" +:+ dq +:+ "]" ].
Definition submit_selectors : list string :=
  [ "input[name=" +:+ dq +:+ "signInSubmitButton" +:+ dq +:+ "]";
    "input[type=" +:+ dq +:+ "submit" +:+ dq +:+ "]" ].

(** The inner loop of [find_visible_element] (lines 239-241). *)
Fixpoint first_visible (elements : list element) : M (option element) :=
  match elements with
  | [] => mret None
  | el :: rest =>
      visible ← call 240 (IsVisible (el_id el)) (el_is_visible el);
      if (visible : bool) then mret (Some el) else first_visible rest
  end.

(** [find_visible_element] (lines 236-242) *)
Fixpoint find_visible_element (env : login_env) (selectors : list string)
  : M (option element) :=
  match selectors with
  | [] => mret None
  | selector :: rest =>
      elements ← call 238 (QuerySelectorAll selector) (le_query_selector_all env selector);
      found ← first_visible elements;
      match found with
      | Some el => mret (Some el)
      | None => find_visible_element env rest
      end
  end.

Definition str_of_option (o : option string) : string :=
  match o with
  | Some s => s
  | None => "None"
  end.

(** Lines 278-344: the submit button and what follows the click. *)
Definition submit_login (env : login_env) : M unit :=
  submit_button ← find_visible_element env submit_selectors;
  match submit_button with
  | Some sb =>
      log "Found submit button with name: signInSubmitButton";;
      let pre_submit_url := le_url env in
      log "Clicking submit button";;
      call 289 (Click (el_id sb)) (el_click sb);;
      try_
        (log "Waiting for navigation after submit...";;
         try_
           (call 302 (WaitForFunction "() => true" 10000) (le_wait_function env);;
            if negb (String.eqb (le_url_after env) pre_submit_url)
            then log ("URL changed to: " +:+ le_url_after env)
            else log "URL did not change, but continuing...")
           (fun url_wait_error =>
              log ("Error waiting for URL change: " +:+ url_wait_error));;
         try_
           (call 312 (WaitForLoadState "domcontentloaded" (Some 15000))
                 (le_wait_load_after env);;
            log "Page content loaded")
           (fun load_error =>
              log ("Load state timeout, but continuing: " +:+ load_error));;
         log ("Login process completed, current URL: " +:+ le_url_after env))
        (fun nav_error =>
           log ("Navigation error: " +:+ nav_error);;
           let current_url := le_url_after env in
           log ("Current URL after submit attempt: " +:+ current_url);;
           if contains "login" (lower current_url) || contains "signin" (lower current_url)
           then
             log "Still on login page, checking for error messages";;
             error_element ← call 331 (QuerySelector ".error-message, .alert-error")
                                  (le_query_selector env);
             match error_element with
             | Some ee =>
                 error_text ← call 333 (TextContent (el_id ee)) (el_text_content ee);
                 log ("Login error message found: " +:+ str_of_option error_text);;
                 print ("Login error: " +:+ str_of_option error_text)
             | None => mret tt
             end;;
             print "Login failed. Please login manually within 60 seconds.";;
             sleep 60
           else log "Page URL changed but navigation event not detected")
  | None =>
      log "Could not find submit button with name: signInSubmitButton";;
      print "Could not find submit button. Please login manually within 60 seconds.";;
      sleep 60
  end.

(** Lines 224-344: the body of the inner [try]. *)
Definition fill_login_form (creds : credentials) (env : login_env) : M unit :=
  log "Looking for NASA Cognito-specific login elements...";;
  sleep 1;;
  log "Checking for visible form elements (page has duplicate IDs)";;
  username_field ← find_visible_element env username_selectors;
  match username_field with
  | Some uf =>
      log "Found visible username field";;
      call 249 (Click (el_id uf)) (el_click uf);;
      call 250 (Fill (el_id uf) "") (el_fill uf "");;
      call 251 (Fill (el_id uf) (COGNITO_USERNAME creds))
           (el_fill uf (COGNITO_USERNAME creds));;
      log "Filled username field";;
      sleep 1;;
      password_field ← find_visible_element env password_selectors;
      match password_field with
      | Some pf =>
          log "Found visible password field";;
          call 266 (Click (el_id pf)) (el_click pf);;
          call 267 (Fill (el_id pf) "") (el_fill pf "");;
          call 268 (Fill (el_id pf) (COGNITO_PASSWORD creds))
               (el_fill pf (COGNITO_PASSWORD creds));;
          log "Filled password field";;
          sleep 1;;
          submit_login env
      | None =>
          log "Could not find visible password field";;
          print "Could not find password field. Please login manually within 60 seconds.";;
          sleep 60
      end
  | None =>
      log "Could not find visible username field";;
      print "Could not find username field. Please login manually within 60 seconds.";;
      sleep 60
  end.

Definition handle_cognito_login (creds : credentials) (env : login_env) : M unit :=
  try_
    (call 211 (WaitForLoadState "domcontentloaded" (Some 30000)) (le_wait_load env);;
     log ("Login page loaded, URL: " +:+ le_url env);;
     if nonempty (COGNITO_USERNAME creds) && nonempty (COGNITO_PASSWORD creds) then
       log "Attempting automatic login with stored credentials";;
       closed ← call 218 IsClosed (Ok (le_is_closed env));
       if (closed : bool) then
         log "Page is closed during login attempt, cannot proceed";;
         print "Login page closed. Please login manually within 60 seconds.";;
         sleep 60
       else
         try_ (fill_login_form creds env)
           (fun e =>
              log ("Error during login process: " +:+ e);;
              print "Login error. Please login manually within 60 seconds.";;
              sleep 60)
     else
       log "No credentials available. Waiting for manual login.";;
       print "Please login manually (no credentials found). Waiting 60 seconds.";;
       sleep 60)
    (fun outer_e =>
       log ("Outer login error: " +:+ outer_e);;
       print "Login process error. Please login manually within 60 seconds.";;
       sleep 60).

(** [check_and_handle_cognito_login] (lines 360-366) *)
Definition check_and_handle_cognito_login (creds : credentials)
    (current_url : string) (env : login_env) : M bool :=
  if contains "awscognito" current_url || contains "amazoncognito" current_url then
    log ("AWS Cognito login page detected in URL: " +:+ current_url);;
    handle_cognito_login creds env;;
    mret true
  else mret false.

(** ** The browsing loop of browse_and_track_cookies (lines 502-630) *)

Record config := {
  url : string;
  browse_duration : Z;
  refresh_interval : Z;
  return_interval : Z;
  cookie_mod_interval : Z
}.

Record clock := {
  last_refresh_time : Z;
  last_return_time : Z;
  last_cookie_mod_time : Z
}.

(** What the clock and the browser answer during one iteration. *)
Record tick := {
  t_time_check : Z;                       (* time.time() at line 502 *)
  t_current_time : Z;                     (* time.time() at line 503 *)
  t_url_at_check : string;                (* page.url at line 361 *)
  t_login : login_env;
  t_cookies : outcome (list cookie);      (* line 509 *)
  t_page_url : string;                    (* page.url at line 511 *)
  t_modify : modify_env;
  t_goto_start : outcome unit;            (* line 527 *)
  t_refresh : outcome unit;               (* line 536 *)
  t_links : outcome (list element);       (* line 543 *)
  t_entropy : Z;                          (* the draw behind random.randint, line 558 *)
  t_wait_networkidle : outcome unit;      (* line 567 *)
  t_goto_link : string -> outcome unit;   (* line 575 *)
  t_wait_before_reload : outcome unit;    (* line 598 *)
  t_reload : outcome unit;                (* line 603 *)
  t_wait_after_reload : outcome unit;     (* line 607 *)
  t_request_headers : option headers      (* what the listener of line 592 captured *)
}.

Definition bad_link_words : list string :=
  [ "install"; "uninstall"; "forgot"; "google" ].

(** The test of line 552. *)
Definition href_allowed (href : option string) : bool :=
  match href with
  | Some h =>
      nonempty h &&
      negb (existsb (fun bad_word => contains bad_word (lower h)) bad_link_words)
  | None => false
  end.

(** The filter loop of lines 549-553. *)
Fixpoint filtered_links (links : list element) : M (list (element * string)) :=
  match links with
  | [] => mret []
  | link :: rest =>
      href ← call 551 (GetAttribute (el_id link) "href") (el_href link);
      filtered ← filtered_links rest;
      match href with
      | Some h => mret (if href_allowed href then (link, h) :: filtered else filtered)
      | None => mret filtered
      end
  end.

(** [random.randint(a, b)]: an integer N with a <= N <= b, [ValueError] on an
    empty range; [entropy] is the draw of the generator. *)
Definition randint (a b entropy : Z) : M Z :=
  if a <=? b then mret (a + entropy mod (b - a + 1))
  else raise_ "empty range in randrange".

(** [l[i]] on a Python list: negative indices count from the end,
    [IndexError] out of range. *)
Definition py_index {A} (l : list A) (i : Z) : M A :=
  let n := Z.of_nat (length l) in
  let j := if i <? 0 then i + n else i in
  if (0 <=? j) && (j <? n) then
    match l !! Z.to_nat j with
    | Some x => mret x
    | None => raise_ "list index out of range"
    end
  else raise_ "list index out of range".

(** The direct-navigation target of lines 572-574. *)
Definition full_url (cfg : config) (href : string) : string :=
  if startswith href "http" then href
  else rstrip_slash (url cfg) +:+ "/" +:+ lstrip_slash href.

(** Lines 563-580: click the chosen link; if that fails, navigate to it. *)
Definition click_or_navigate (cfg : config) (t : tick) (random_link : element)
    (href : string) : M unit :=
  try_
    (log (nl +:+ "Clicking link: " +:+ href);;
     call 565 (Click (el_id random_link)) (el_click random_link);;
     call 567 (WaitForLoadState "networkidle" None) (t_wait_networkidle t))
    (fun e =>
       log ("Error clicking link: " +:+ e);;
       try_
         (call 575 (Goto (full_url cfg href)) (t_goto_link t (full_url cfg href)))
         (fun inner_e => log ("Error navigating to link: " +:+ inner_e))).

(** Lines 543-582: the [else] branch of the scheduler. *)
Definition click_random_link (cfg : config) (t : tick) : M unit :=
  links ← call 543 (QuerySelectorAll "a") (t_links t);
  match links with
  | _ :: _ =>
      filtered ← filtered_links links;
      match filtered with
      | _ :: _ =>
          random_choice ← randint 0 (Z.min 9 (Z.of_nat (length filtered) - 1))
                                  (t_entropy t);
          '(random_link, href) ← py_index filtered random_choice;
          if nonempty href && negb (startswith href "#")
             && negb (startswith href "javascript:")
          then click_or_navigate cfg t random_link href
          else mret tt
      | [] =>
          log "No suitable links found after filtering out install/uninstall links"
      end
  | [] => mret tt
  end.

(** Lines 514-582: the [if]/[elif]/[else] chain; it yields the updated clock. *)
Definition scheduler_branch (cfg : config) (clk : clock) (t : tick)
    (current_time : Z) : M clock :=
  if cookie_mod_interval cfg <=? current_time - last_cookie_mod_time clk then
    log (nl +:+ "Time to modify auth cookies");;
    try_ (modify_auth_cookies (t_modify t))
         (fun e => log ("Error modifying auth cookies: " +:+ e));;
    mret {| last_refresh_time := last_refresh_time clk;
            last_return_time := last_return_time clk;
            last_cookie_mod_time := current_time |}
  else if return_interval cfg <=? current_time - last_return_time clk then
    log (nl +:+ "Returning to starting page: " +:+ url cfg);;
    try_ (call 527 (Goto (url cfg)) (t_goto_start t))
         (fun e => log ("Error returning to starting page: " +:+ e));;
    mret {| last_refresh_time := last_refresh_time clk;
            last_return_time := current_time;
            last_cookie_mod_time := last_cookie_mod_time clk |}
  else if refresh_interval cfg <=? current_time - last_refresh_time clk then
    log (nl +:+ "Refreshing current page...");;
    try_ (call 536 (Reload None None) (t_refresh t))
         (fun e => log ("Error refreshing page: " +:+ e));;
    mret {| last_refresh_time := current_time;
            last_return_time := last_return_time clk;
            last_cookie_mod_time := last_cookie_mod_time clk |}
  else
    click_random_link cfg t;;
    mret clk.

Inductive loop_end :=
| DurationElapsed      (* the loop condition of line 502 became false *)
| TicksExhausted.      (* the supplied ticks ran out while the loop was still running *)

Section Loop.

(** [json.dumps(cookies, indent=2)] *)
Variable json_dumps : list cookie -> string.

(** Lines 584-630: header capture, size report, cookie growth report. *)
Definition capture_and_report (initial_cookies current_cookies : list cookie)
    (t : tick) : M unit :=
  call 592 (Once "request" "capture_request_headers") (Ok tt);;
  try_
    (try_
       (call 598 (WaitForLoadState "domcontentloaded" (Some 10000))
             (t_wait_before_reload t))
       (fun load_error =>
          log ("Load state timeout before reload, continuing anyway: " +:+ load_error));;
     call 603 (Reload (Some 30000) (Some "domcontentloaded")) (t_reload t);;
     try_
       (call 607 (WaitForLoadState "networkidle" (Some 5000)) (t_wait_after_reload t))
       (fun nw_error =>
          log ("Network idle timeout after reload, continuing anyway: " +:+ nw_error)))
    (fun reload_error => log ("Error during page reload: " +:+ reload_error));;
  match t_request_headers t with
  | Some request_headers =>
      if bool_decide (request_headers = ∅) then mret tt
      else
        let header_size := calculate_header_size (Some request_headers) in
        log ("Total request header size: " +:+ pretty header_size +:+ " bytes")
  | None => mret tt
  end;;
  let new_cookies :=
    List.filter (fun c => negb (existsb (dict_eq c) initial_cookies)) current_cookies in
  match new_cookies with
  | _ :: _ =>
      log ("New cookies since start: " +:+ pretty (length new_cookies));;
      log ("New cookie details:" +:+ nl +:+ json_dumps new_cookies)
  | [] => mret tt
  end;;
  call 627 (Once "request" "log_request_headers") (Ok tt);;
  sleep 10.

(** One iteration of the loop (lines 503-630). *)
Definition tick_body (cfg : config) (creds : credentials)
    (initial_cookies : list cookie) (clk : clock) (t : tick) : M clock :=
  let current_time := t_current_time t in
  check_and_handle_cognito_login creds (t_url_at_check t) (t_login t);;
  current_cookies ← call 509 Cookies (t_cookies t);
  log (nl +:+ "==== CURRENT REQUEST ====");;
  log ("Current URL: " +:+ t_page_url t);;
  log ("Cookies count: " +:+ pretty (length current_cookies));;
  clk' ← scheduler_branch cfg clk t current_time;
  capture_and_report initial_cookies current_cookies t;;
  mret clk'.

(** The [while] loop of line 502, run against the supplied ticks. *)
Fixpoint browse_loop (cfg : config) (creds : credentials)
    (initial_cookies : list cookie) (start_time : Z) (clk : clock)
    (ticks : list tick) : M loop_end :=
  match ticks with
  | [] => mret TicksExhausted
  | t :: rest =>
      if t_time_check t - start_time <? browse_duration cfg then
        clk' ← tick_body cfg creds initial_cookies clk t;
        browse_loop cfg creds initial_cookies start_time clk' rest
      else mret DurationElapsed
  end.

End Loop.

(** ** Observations on traces *)

(** The four action categories of the scheduler. *)
Inductive action :=
| ModifyCookies
| ReturnToStart
| RefreshPage
| ClickLink.

(** The browser call that carries out each category, identified by the
    line that issues it: the snapshot opening [modify_auth_cookies]
    (line 380), [page.goto(url)] (line 527), [page.reload()] (line 536) and
    [random_link.click()] (line 565). *)
Definition action_of (e : event) : option action :=
  match e with
  | ECall 380 Cookies => Some ModifyCookies
  | ECall 527 (Goto _) => Some ReturnToStart
  | ECall 536 (Reload _ _) => Some RefreshPage
  | ECall 565 (Click _) => Some ClickLink
  | _ => None
  end.

Definition actions (tr : list event) : list action := omap action_of tr.

(** The category the elapsed-time thresholds select, by priority. *)
Definition due (cfg : config) (clk : clock) (current_time : Z) : action :=
  if cookie_mod_interval cfg <=? current_time - last_cookie_mod_time clk then ModifyCookies
  else if return_interval cfg <=? current_time - last_return_time clk then ReturnToStart
  else if refresh_interval cfg <=? current_time - last_refresh_time clk then RefreshPage
  else ClickLink.

(** The link the [else] branch goes on to click, if any: the page has
    anchors, some survive the filter, and the href drawn is neither empty nor
    a fragment nor a javascript: link. *)
Definition chosen_link (t : tick) : option (element * string) :=
  match t_links t with
  | Ok (l :: ls) =>
      match result (filtered_links (l :: ls)) with
      | Ok (f :: fs) =>
          match result (random_choice ← randint 0 (Z.min 9 (Z.of_nat (length (f :: fs)) - 1))
                                                (t_entropy t);
                        py_index (f :: fs) random_choice) with
          | Ok (link, href) =>
              if nonempty href && negb (startswith href "#")
                 && negb (startswith href "javascript:")
              then Some (link, href) else None
          | Raise _ => None
          end
      | _ => None
      end
  | _ => None
  end.

(** The events of the [else] branch that come before a click: the anchor
    query, the href reads and the log line. *)
Definition before_click (e : event) : bool :=
  match e with
  | ECall 543 (QuerySelectorAll _) => true
  | ECall 551 (GetAttribute _ _) => true
  | ELog _ => true
  | _ => false
  end.

(** The size one header line contributes: key, ": ", value, CRLF. *)
Definition entry_size (kv : string * value) : Z :=
  utf8_len kv.1 + utf8_len (py_str kv.2) + 4.

Definition sum_entries (l : list (string * value)) : Z :=
  foldr (fun kv acc => entry_size kv + acc) 0 l.

Definition has_indicator (message : string) : bool :=
  existsb (fun indicator => contains indicator message) url_indicators.

Definition has_expires (c : cookie) : bool :=
  match c !! "expires" with
  | Some _ => true
  | None => false
  end.

Definition zero_expiry (c : cookie) : cookie := <["expires" := VInt 0]> c.

(** The manual-login prompts all carry this phrase. *)
Definition is_prompt (text : string) : bool := contains "Please login manually" text.

(** Events that neither print nor sleep longer than the one-second pauses. *)
Definition quiet (e : event) : bool :=
  match e with
  | EPrint _ => false
  | ESleep s => s =? 1
  | _ => true
  end.

(** A trace that ends in a manual-login prompt followed by the 60-second
    wait, nothing having been printed and no other long wait made before. *)
Definition ends_with_prompt (tr : list event) : Prop :=
  exists pre text,
    tr = pre ++ [EPrint text; ESleep 60] /\
    forallb quiet pre = true /\ is_prompt text = true.

Definition succeeded {A} (o : outcome A) : bool :=
  match o with
  | Ok _ => true
  | Raise _ => false
  end.

(** A form field was found visible and accepted the click and both fills. *)
Definition field_filled (env : login_env) (selectors : list string) (text : string)
  : bool :=
  match result (find_visible_element env selectors) with
  | Ok (Some f) =>
      succeeded (el_click f) && succeeded (el_fill f "") && succeeded (el_fill f text)
  | _ => false
  end.

(** The submit button was found visible and accepted the click. *)
Definition submit_clicked (env : login_env) : bool :=
  match result (find_visible_element env submit_selectors) with
  | Ok (Some sb) => succeeded (el_click sb)
  | _ => false
  end.

(** Both fields were filled and the submit button was clicked. *)
Definition form_filled (creds : credentials) (env : login_env) : bool :=
  field_filled env username_selectors (COGNITO_USERNAME creds)
  && field_filled env password_selectors (COGNITO_PASSWORD creds)
  && submit_clicked env.

(** Every step of the scripted login up to and including the click on the
    submit button went through. *)
Definition form_submitted (creds : credentials) (env : login_env) : bool :=
  succeeded (le_wait_load env)
  && nonempty (COGNITO_USERNAME creds) && nonempty (COGNITO_PASSWORD creds)
  && negb (le_is_closed env)
  && form_filled creds env.

(** A step that completed without printing or waiting long. *)
Definition done_quietly (m : M unit) : Prop :=
  result m = Ok tt /\ forallb quiet (trace m) = true.

(** A step that either raised, quietly, or returned after the prompt and
    the 60-second wait. *)
Definition prompt_or_raise (m : M unit) : Prop :=
  (exists e, result m = Raise e /\ forallb quiet (trace m) = true) \/
  (result m = Ok tt /\ ends_with_prompt (trace m)).

Definition phase (submitted : bool) (m : M unit) : Prop :=
  if submitted then done_quietly m else prompt_or_raise m.

(** ** Sample inputs *)

Definition sample_element (id : nat) (href : option string) (click : outcome unit)
  : element :=
  {| el_id := id; el_is_visible := Ok true; el_click := click;
     el_fill := fun _ => Ok tt; el_text_content := Ok None; el_href := Ok href |}.

Definition sample_modify_env (snapshot : list cookie) : modify_env :=
  {| me_cookies := Ok snapshot; me_clear_cookies := Ok tt;
     me_add_cookies := fun _ => Ok tt; me_reload := Ok tt |}.

(** Two cookies named [sid] on different domains; only the first has an expiry. *)
Definition sid_with_expiry : cookie :=
  <["name" := VStr "sid"]> (<["domain" := VStr "a.example"]>
    (<["expires" := VInt 1700000000]> ∅)).
Definition sid_session : cookie :=
  <["name" := VStr "sid"]> (<["domain" := VStr "b.example"]> ∅).
Definition theme_session : cookie :=
  <["name" := VStr "theme"]> (<["value" := VStr "dark"]> ∅).

Definition sample_creds : credentials :=
  {| COGNITO_USERNAME := "operator"; COGNITO_PASSWORD := "secret" |}.

(** A login page with one visible element per selector; the wait that
    follows the submit click is the field [wait_function]. *)
Definition sample_login_env (wait_function : outcome unit) : login_env :=
  {| le_wait_load := Ok tt;
     le_url := "https://auth.example.amazoncognito.com/login";
     le_is_closed := false;
     le_query_selector_all := fun _ => Ok [sample_element 1 None (Ok tt)];
     le_wait_function := wait_function;
     le_url_after := "https://app.example/";
     le_wait_load_after := Ok tt;
     le_query_selector := Ok None |}.

Definition sample_config : config :=
  {| url := "https://app.example/"; browse_duration := 600;
     refresh_interval := 60; return_interval := 300; cookie_mod_interval := 120 |}.

Definition sample_clock : clock :=
  {| last_refresh_time := 0; last_return_time := 0; last_cookie_mod_time := 0 |}.

(** A tick at clock reading [now] on a page whose anchors are [links]. *)
Definition sample_tick (now : Z) (links : outcome (list element)) : tick :=
  {| t_time_check := now; t_current_time := now;
     t_url_at_check := "https://app.example/";
     t_login := sample_login_env (Ok tt);
     t_cookies := Ok [theme_session];
     t_page_url := "https://app.example/";
     t_modify := sample_modify_env [theme_session];
     t_goto_start := Ok tt; t_refresh := Ok tt;
     t_links := links; t_entropy := 7;
     t_wait_networkidle := Ok tt; t_goto_link := fun _ => Ok tt;
     t_wait_before_reload := Ok tt; t_reload := Ok tt; t_wait_after_reload := Ok tt;
     t_request_headers := None |}.

Definition sample_json_dumps (cs : list cookie) : string := "[]".

(** ** The code around the loop: listeners, start-up and shutdown *)

(** [s[:n]] *)
Fixpoint take_chars (n : nat) (s : string) : string :=
  match n, s with
  | O, _ => EmptyString
  | S _, EmptyString => EmptyString
  | S n', String a s' => String a (take_chars n' s')
  end.

(** The browser calls made outside the loop body and by the listeners. *)
Inductive session_op :=
| StartPlaywright                           (* entering [async with async_playwright()] *)
| StopPlaywright                            (* leaving it *)
| Launch (headless : bool)                  (* p.chromium.launch(headless=...) *)
| NewContext                                (* browser.new_context(...) *)
| NewPage                                   (* context.new_page() *)
| On (target event_name handler : string)   (* target.on(event_name, handler) *)
| TabWaitForLoadState (state : string) (timeout : Z)  (* new_page.wait_for_load_state *)
| TabClose                                  (* new_page.close() *)
| ResponseText                              (* response.text() *)
| CloseBrowser.                             (* browser.close() *)

Inductive session_event :=
| Ev (e : event)                            (* an event of the kinds above *)
| SCall (line : N) (o : session_op).

Definition Sess (A : Type) : Type := (list session_event * outcome A)%type.

Definition sess_ret {A} (a : A) : Sess A := ([], Ok a).

Definition sess_bind {A B} (m : Sess A) (f : A -> Sess B) : Sess B :=
  match m with
  | (tr, Ok a) => let '(tr', r) := f a in (tr ++ tr', r)
  | (tr, Raise e) => (tr, Raise e)
  end.

Definition sess_try {A} (body : Sess A) (handler : string -> Sess A) : Sess A :=
  match body with
  | (tr, Raise e) => let '(tr', r) := handler e in (tr ++ tr', r)
  | (tr, Ok a) => (tr, Ok a)
  end.

(** [try: body finally: cleanup], for a cleanup that does not raise. *)
Definition sess_finally {A} (body : Sess A) (cleanup : list session_event) : Sess A :=
  (fst body ++ cleanup, snd body).

(** A computation of the loop's kind, run as part of the session. *)
Definition lift {A} (m : M A) : Sess A := (map Ev (trace m), result m).

Definition scall {A} (line : N) (o : session_op) (r : outcome A) : Sess A :=
  ([SCall line o], r).
Definition slog (message : string) : Sess unit := lift (log message).

Definition strace {A} (m : Sess A) : list session_event := fst m.
Definition sresult {A} (m : Sess A) : outcome A := snd m.

Notation "x ⇐ m ; k" := (sess_bind m (fun x => k))
  (at level 100, m at next level, k at level 200, right associativity, only parsing).
Notation "m ;;; k" := (sess_bind m (fun _ => k))
  (at level 100, k at level 200, right associativity, only parsing).

(** *** handle_new_page (lines 124-154) *)

Record new_tab := {
  nt_is_main : bool;                    (* new_page == page *)
  nt_wait_load : outcome unit;          (* line 133 *)
  nt_url : string;                      (* new_page.url *)
  nt_goto : outcome unit;               (* page.goto(new_url), line 141 *)
  nt_close : outcome unit;              (* line 146 *)
  nt_close_after_error : outcome unit   (* line 151 *)
}.

Definition handle_new_page (tab : new_tab) : Sess unit :=
  if nt_is_main tab then
    slog "Ignoring main page in page event handler"
  else
    slog "New tab detected, will close after capturing URL";;;
    sess_try
      (scall 133 (TabWaitForLoadState "domcontentloaded" 5000) (nt_wait_load tab);;;
       let new_url := nt_url tab in
       slog ("New tab opened with URL: " +:+ new_url);;;
       (if negb (String.eqb new_url "about:blank") then
          slog ("Redirecting main tab to: " +:+ new_url);;;
          lift (call 141 (Goto new_url) (nt_goto tab))
        else slog "Ignoring about:blank tab");;;
       scall 146 TabClose (nt_close tab);;;
       slog "Closed the new tab")
      (fun e =>
         slog ("Error handling new tab: " +:+ e);;;
         sess_try
           (scall 151 TabClose (nt_close_after_error tab);;;
            slog "Closed the new tab after error")
           (fun _ => slog "Could not close the new tab")).

(** *** log_response_status (lines 162-201) *)

Record response := {
  rs_status : Z;
  rs_status_text : string;
  rs_url : string;
  rs_headers : gmap string string;
  rs_text : outcome string              (* await response.text(), line 188 *)
}.

(** The handler reads and may set the flag [cognito_redirect_detected]; it
    yields the flag's new value. *)
Definition log_response_status (cognito_redirect_detected : bool) (r : response)
  : Sess bool :=
  let status := rs_status r in
  slog (nl +:+ "==== RESPONSE STATUS ====");;;
  slog ("URL: " +:+ rs_url r);;;
  slog ("Status Code: " +:+ pretty status +:+ " " +:+ rs_status_text r);;;
  detected ⇐
    (if status =? 302 then
       let location := default "" (rs_headers r !! "location") in
       if nonempty location && contains "amazoncognito" location then
         slog ("Amazon Cognito redirect detected (302 to Cognito URL: "
               +:+ location +:+ ")");;;
         sess_ret true
       else sess_ret cognito_redirect_detected
     else sess_ret cognito_redirect_detected);
  (if 400 <=? status then
     slog ("ERROR: Response code " +:+ pretty status +:+ " indicates an error");;;
     sess_try
       (body ⇐ scall 188 ResponseText (rs_text r);
        if nonempty body then
          slog ("Error response (truncated): " +:+ take_chars 500 body);;;
          if (500 <? String.length body)%nat then slog "... (response truncated)"
          else sess_ret tt
        else sess_ret tt)
       (fun e => slog ("Could not retrieve error response body: " +:+ e))
   else sess_ret tt);;;
  sess_ret detected.

(** *** Start-up (lines 428-499) and the whole of browse_and_track_cookies *)

Record startup_env := {
  su_goto : outcome unit;                     (* line 430 *)
  su_cognito_redirect_detected : bool;        (* the flag after that navigation *)
  su_login : login_env;
  su_cookies : outcome (list cookie);         (* line 439 *)
  su_wait_load : outcome unit;                (* line 457 *)
  su_reload : outcome unit;                   (* line 460 *)
  su_wait_networkidle : outcome unit;         (* line 464 *)
  su_current_url : string;                    (* page.url at line 471 *)
  su_goto_current : outcome unit;             (* line 473 *)
  su_request_headers : option headers;        (* what the listener of line 452 captured *)
  su_goto_after_pause : outcome unit          (* line 490 *)
}.

Record session_env := {
  se_start : outcome unit;                    (* line 109 *)
  se_launch : outcome unit;                   (* line 111 *)
  se_new_context : outcome unit;              (* line 114 *)
  se_new_page : outcome unit;                 (* line 121 *)
  se_startup : startup_env;
  se_start_time : Z;                          (* time.time() at line 496 *)
  se_ticks : list tick;
  se_close : outcome unit                     (* line 633 *)
}.

Section Session.

Variable json_dumps : list cookie -> string.

(** Lines 429-493: first navigation, initial snapshot and header capture,
    the pause for a manual login, the return to the start page.  It yields
    the initial cookies and the browsing duration, which line 492 sets to 0
    when that return fails. *)
Definition startup (cfg : config) (creds : credentials) (initial_pause : Z)
    (env : startup_env) : M (list cookie * Z) :=
  log ("Navigating to " +:+ url cfg);;
  call 430 (Goto (url cfg)) (su_goto env);;
  (if su_cognito_redirect_detected env then
     log "Handling Cognito login after redirect was detected";;
     handle_cognito_login creds (su_login env)
   else mret tt);;
  initial_cookies ← call 439 Cookies (su_cookies env);
  log (nl +:+ "==== INITIAL REQUEST ====");;
  log ("Cookies count: " +:+ pretty (length initial_cookies));;
  call 452 (Once "request" "capture_initial_headers") (Ok tt);;
  try_
    (call 457 (WaitForLoadState "domcontentloaded" (Some 20000)) (su_wait_load env);;
     call 460 (Reload (Some 45000) (Some "domcontentloaded")) (su_reload env);;
     try_
       (call 464 (WaitForLoadState "networkidle" (Some 20000)) (su_wait_networkidle env))
       (fun nw_error =>
          log ("Network idle timeout after reload, continuing anyway: " +:+ nw_error)))
    (fun reload_error =>
       log ("Error during page reload: " +:+ reload_error);;
       try_
         (let current_url := su_current_url env in
          log ("Attempting alternative refresh by navigating to current URL: "
               +:+ current_url);;
          call 473 (Goto current_url) (su_goto_current env))
         (fun alt_error => log ("Alternative refresh also failed: " +:+ alt_error)));;
  match su_request_headers env with
  | Some request_headers =>
      if bool_decide (request_headers = ∅) then mret tt
      else
        let header_size := calculate_header_size (Some request_headers) in
        log ("Total request header size: " +:+ pretty header_size +:+ " bytes")
  | None => mret tt
  end;;
  let cookie_details := json_dumps initial_cookies in
  log ("Cookie details:" +:+ nl +:+ cookie_details);;
  print ("Waiting Initial Sleep Period of " +:+ pretty initial_pause +:+ "...");;
  sleep initial_pause;;
  log ("\Refreshing starting page: " +:+ url cfg);;
  browse_duration' ←
    try_ (call 490 (Goto (url cfg)) (su_goto_after_pause env);;
          mret (browse_duration cfg))
         (fun _ => mret 0);
  log ("Continuing with automated browsing..." +:+ nl);;
  mret (initial_cookies, browse_duration').

(** [browse_and_track_cookies] (lines 88-634).  Its loop is [browse_loop],
    run with the duration start-up yields; a run whose ticks are used up
    before the loop condition fails stops there. *)
Definition browse_and_track_cookies (cfg : config) (creds : credentials)
    (initial_pause : Z) (env : session_env) : Sess loop_end :=
  scall 109 StartPlaywright (se_start env);;;
  sess_finally
    (scall 111 (Launch false) (se_launch env);;;
     scall 114 NewContext (se_new_context env);;;
     scall 121 NewPage (se_new_page env);;;
     scall 157 (On "context" "page" "handle_new_page") (Ok tt);;;
     scall 204 (On "page" "response" "log_response_status") (Ok tt);;;
     started ⇐ lift (startup cfg creds initial_pause (se_startup env));
     let '(initial_cookies, duration) := started in
     let start_time := se_start_time env in
     let clk := {| last_refresh_time := start_time;
                   last_return_time := start_time;
                   last_cookie_mod_time := start_time |} in
     let cfg' := {| url := url cfg; browse_duration := duration;
                    refresh_interval := refresh_interval cfg;
                    return_interval := return_interval cfg;
                    cookie_mod_interval := cookie_mod_interval cfg |} in
     ending ⇐ lift (browse_loop json_dumps cfg' creds initial_cookies start_time clk
                      (se_ticks env));
     match ending with
     | DurationElapsed =>
         scall 633 CloseBrowser (se_close env);;;
         slog (nl +:+ "==== BROWSING SESSION COMPLETE ====");;;
         sess_ret DurationElapsed
     | TicksExhausted => sess_ret TicksExhausted
     end)
    [SCall 109 StopPlaywright].

End Session.

(** ** Further observations *)

(** The body of the [try] of lines 401-422 in [modify_auth_cookies]. *)
Definition apply_modifications (env : modify_env) (all_cookies modified_cookies : list cookie)
  : M unit :=
  call 402 ClearCookies (me_clear_cookies env);;
  cookie_names_to_modify ← cookie_names modified_cookies;
  original_cookies_to_keep ← keep_originals cookie_names_to_modify all_cookies;
  match original_cookies_to_keep with
  | _ :: _ =>
      call 411 (AddCookies original_cookies_to_keep)
           (me_add_cookies env original_cookies_to_keep)
  | [] => mret tt
  end;;
  call 414 (AddCookies modified_cookies) (me_add_cookies env modified_cookies);;
  log ("Successfully modified " +:+ pretty (length modified_cookies)
       +:+ " auth cookies");;
  try_
    (log "Reloading page to apply cookie changes";;
     call 420 (Reload (Some 30000) (Some "domcontentloaded")) (me_reload env))
    (fun reload_error =>
       log ("Error during reload after cookie modification: " +:+ reload_error)).

(** Replaying a list of (timestamp, message) pairs through [log_message]. *)
Definition log_messages (entries : list (string * string)) (st : log_state) : log_state :=
  fold_left (fun st entry => log_message entry.1 entry.2 st) entries st.

Definition is_log (e : event) : bool :=
  match e with
  | ELog _ => true
  | _ => false
  end.

(** What a trace logs and prints. *)
Definition output_of (e : event) : option (bool * string) :=
  match e with
  | ELog message => Some (false, message)
  | EPrint text => Some (true, text)
  | _ => None
  end.

Definition outputs (tr : list event) : list (bool * string) := omap output_of tr.

(** Two computations that return the same and log and print the same. *)
Definition same_output {A} (m m' : M A) : Prop :=
  result m = result m' /\ outputs (trace m) = outputs (trace m').

(** The seconds a trace spends in [asyncio.sleep]. *)
Fixpoint sleep_total (tr : list event) : Z :=
  match tr with
  | [] => 0
  | ESleep s :: tr' => s + sleep_total tr'
  | _ :: tr' => sleep_total tr'
  end.

(** A computation that has slept at most [n] seconds if it raised, and at
    most [n] plus the 60-second wait if it returned. *)
Definition sleeps_within {A} (n : Z) (m : M A) : Prop :=
  sleep_total (trace m) <= n + match result m with
                                | Ok _ => 60
                                | Raise _ => 0
                                end.

(** The clock after the branch the thresholds select. *)
Definition stamp (a : action) (clk : clock) (current_time : Z) : clock :=
  match a with
  | ModifyCookies =>
      {| last_refresh_time := last_refresh_time clk;
         last_return_time := last_return_time clk;
         last_cookie_mod_time := current_time |}
  | ReturnToStart =>
      {| last_refresh_time := last_refresh_time clk;
         last_return_time := current_time;
         last_cookie_mod_time := last_cookie_mod_time clk |}
  | RefreshPage =>
      {| last_refresh_time := current_time;
         last_return_time := last_return_time clk;
         last_cookie_mod_time := last_cookie_mod_time clk |}
  | ClickLink => clk
  end.

(** The threshold of each timed action. *)
Definition interval_of (cfg : config) (a : action) : Z :=
  match a with
  | ModifyCookies => cookie_mod_interval cfg
  | ReturnToStart => return_interval cfg
  | RefreshPage => refresh_interval cfg
  | ClickLink => 0
  end.

(** Clock readings that never run backwards from [since]. *)
Fixpoint nondecreasing (since : Z) (ticks : list tick) : Prop :=
  match ticks with
  | [] => True
  | t :: rest =>
      since <= t_time_check t /\ t_time_check t <= t_current_time t /\
      nondecreasing (t_current_time t) rest
  end.

(** A tick at clock reading 130 in which the cookie snapshot taken by
    [modify_auth_cookies] raises. *)
Definition sample_tick_modify_fails : tick :=
  {| t_time_check := 130; t_current_time := 130;
     t_url_at_check := "https://app.example/";
     t_login := sample_login_env (Ok tt);
     t_cookies := Ok [theme_session];
     t_page_url := "https://app.example/";
     t_modify := {| me_cookies := Raise "Target closed";
                    me_clear_cookies := Ok tt;
                    me_add_cookies := fun _ => Ok tt;
                    me_reload := Ok tt |};
     t_goto_start := Ok tt; t_refresh := Ok tt;
     t_links := Ok []; t_entropy := 0;
     t_wait_networkidle := Ok tt; t_goto_link := fun _ => Ok tt;
     t_wait_before_reload := Ok tt; t_reload := Ok tt;
     t_wait_after_reload := Ok tt; t_request_headers := None |}.

(** A start-up in which everything goes through except, possibly, the first
    navigation and the return to the start page after the pause. *)
Definition sample_startup_env (first_goto goto_after_pause : outcome unit) : startup_env :=
  {| su_goto := first_goto; su_cognito_redirect_detected := false;
     su_login := sample_login_env (Ok tt);
     su_cookies := Ok [theme_session];
     su_wait_load := Ok tt; su_reload := Ok tt; su_wait_networkidle := Ok tt;
     su_current_url := "https://app.example/"; su_goto_current := Ok tt;
     su_request_headers := None;
     su_goto_after_pause := goto_after_pause |}.

Definition sample_session_env (startup_answers : startup_env) (ticks : list tick)
  : session_env :=
  {| se_start := Ok tt; se_launch := Ok tt; se_new_context := Ok tt;
     se_new_page := Ok tt; se_startup := startup_answers;
     se_start_time := 0; se_ticks := ticks; se_close := Ok tt |}.

(** ** Facts about the string operations *)

Lemma str_app_nil s : "" +:+ s = s.
Proof. reflexivity. Qed.

Lemma str_app_cons c a b : String c a +:+ b = String c (a +:+ b).
Proof. reflexivity. Qed.

Ltac str_simpl := rewrite ?str_app_nil, ?str_app_cons in *.

Lemma startswith_spec s p : startswith s p = true <-> exists r, s = p +:+ r.
Proof.
  revert s; induction p as [|b p IH]; intros s; simpl.
  - split; [intros _; exists s; reflexivity | by intros _].
  - destruct s as [|a s]; simpl.
    + split; [discriminate | intros [r Hr]; discriminate].
    + destruct (Ascii.eqb_spec a b) as [->|Hne].
      * rewrite IH. split; intros [r Hr]; exists r; str_simpl; congruence.
      * split; [discriminate | intros [r Hr]; str_simpl; congruence].
Qed.

Lemma contains_spec needle hay :
  contains needle hay = true <-> exists a b, hay = a +:+ needle +:+ b.
Proof.
  induction hay as [|c hay IH]; simpl.
  - rewrite orb_false_r, startswith_spec. split.
    + intros [r Hr]. by exists EmptyString, r.
    + intros [a [b Hab]]. destruct a; str_simpl; [by exists b | discriminate].
  - rewrite orb_true_iff, startswith_spec, IH. split.
    + intros [[r Hr] | [a [b Hab]]].
      * by exists EmptyString, r.
      * exists (String c a), b. str_simpl. by rewrite Hab.
    + intros [a [b Hab]]. destruct a as [|a0 a]; str_simpl.
      * left. by exists b.
      * right. exists a, b. congruence.
Qed.

Lemma lower_app a b : lower (a +:+ b) = lower a +:+ lower b.
Proof. induction a as [|c a IH]; str_simpl; simpl; str_simpl; [done | by rewrite IH]. Qed.

Lemma after_first_contains sep s :
  contains sep s = true -> exists t, after_first sep s = Some t.
Proof.
  induction s as [|c s IH]; simpl.
  - rewrite orb_false_r. intros H. rewrite H. eauto.
  - destruct (startswith (String c s) sep) eqn:E; simpl; [eauto | apply IH].
Qed.

Lemma lstrip_slash_spec s :
  exists k, s = slashes k +:+ lstrip_slash s /\ startswith (lstrip_slash s) "/" = false.
Proof.
  induction s as [|c s [k [Hk Hs]]]; simpl.
  - by exists O.
  - destruct (Ascii.eqb_spec c "/"%char) as [->|Hne].
    + exists (S k). simpl. str_simpl. by rewrite <- Hk.
    + exists O. simpl. split; [done|].
      destruct (Ascii.eqb_spec c "/"%char); [done | by destruct s].
Qed.

Lemma rstrip_slash_spec s :
  exists k, s = rstrip_slash s +:+ slashes k /\
            forall r, rstrip_slash s <> r +:+ "/".
Proof.
  induction s as [|c s [k [Hk Hs]]]; simpl.
  - exists O. split; [done|]. intros [|? ?]; discriminate.
  - destruct (rstrip_slash s) as [|d r'] eqn:E.
    + destruct (Ascii.eqb_spec c "/"%char) as [->|Hne].
      * exists (S k). simpl. str_simpl. split; [by rewrite <- Hk|].
        intros [|? ?]; discriminate.
      * exists k. str_simpl. split; [by rewrite <- Hk|].
        intros [|? [|? ?]]; str_simpl; congruence.
    + exists k. str_simpl. split; [by rewrite <- Hk|].
      intros [|e r]; str_simpl; [discriminate|].
      intros Heq. injection Heq as -> Heq. by apply (Hs r).
Qed.

(** ** calculate_header_size *)

Lemma header_fold_sum (l : list (string * value)) :
  foldr (uncurry (fun key v total_size =>
           total_size + (utf8_len key + utf8_len (py_str v) + 2) + 2)) 0 l
  = sum_entries l.
Proof.
  induction l as [|[k v] l IH]; simpl; [done|].
  rewrite IH. unfold entry_size; simpl. lia.
Qed.

(** C8: the header size is 0 for a missing or empty mapping and, for a
    non-empty one, the sum over its entries of the UTF-8 lengths of key and
    [str(value)] plus 4, plus the final 2. *)
Theorem calculate_header_size_spec :
  calculate_header_size None = 0 /\
  calculate_header_size (Some ∅) = 0 /\
  forall h : headers, h <> ∅ ->
    calculate_header_size (Some h) = sum_entries (map_to_list h) + 2.
Proof.
  split; [done|]. split; [done|].
  intros h Hne. unfold calculate_header_size.
  rewrite bool_decide_false by done.
  by rewrite map_fold_foldr, header_fold_sum.
Qed.

Lemma calculate_header_size_spec_witness :
  calculate_header_size (Some sid_session) = sum_entries (map_to_list sid_session) + 2.
Proof.
  apply (proj2 (proj2 calculate_header_size_spec)).
  vm_compute. discriminate.
Defined.

(** ** log_message *)

Lemma print_first_indicator_one ts message indicators :
  existsb (fun indicator => contains indicator message) indicators = true ->
  exists indicator tail_,
    In indicator indicators /\ contains indicator message = true /\
    after_first indicator message = Some tail_ /\
    print_first_indicator ts message indicators
    = [ "[" +:+ ts +:+ "] " +:+ indicator +:+ first_line tail_ ].
Proof.
  induction indicators as [|i rest IH]; simpl; [discriminate|].
  destruct (contains i message) eqn:E; simpl.
  - intros _. destruct (after_first_contains _ _ E) as [t Ht].
    exists i, t. rewrite Ht. auto.
  - intros H. destruct (IH H) as (ind & t & Hin & Hc & Ha & Hp).
    exists ind, t. auto.
Qed.




(** ** The effect monad *)

Lemma bind_ok {A B} tr (a : A) (f : A -> M B) :
  ((tr, Ok a) ≫= f) = (tr ++ trace (f a), result (f a)).
Proof. unfold mbind, M_bind, trace, result. by destruct (f a). Qed.

Lemma bind_raise {A B} tr e (f : A -> M B) :
  ((tr, Raise e) ≫= f) = (tr, Raise e).
Proof. reflexivity. Qed.

Lemma trace_bind {A B} (m : M A) (f : A -> M B) :
  trace (m ≫= f)
  = trace m ++ match result m with
               | Ok a => trace (f a)
               | Raise _ => []
               end.
Proof.
  destruct m as [tr [a|e]]; [rewrite bind_ok | rewrite bind_raise]; simpl;
    [done | by rewrite app_nil_r].
Qed.

Lemma result_bind {A B} (m : M A) (f : A -> M B) :
  result (m ≫= f)
  = match result m with
    | Ok a => result (f a)
    | Raise e => Raise e
    end.
Proof. destruct m as [tr [a|e]]; [by rewrite bind_ok | done]. Qed.

Lemma trace_try {A} (m : M A) (h : string -> M A) :
  trace (try_ m h)
  = trace m ++ match result m with
               | Ok _ => []
               | Raise e => trace (h e)
               end.
Proof.
  destruct m as [tr [a|e]]; unfold try_, trace, result; simpl.
  - by rewrite app_nil_r.
  - by destruct (h e).
Qed.

Lemma result_try {A} (m : M A) (h : string -> M A) :
  result (try_ m h)
  = match result m with
    | Ok a => Ok a
    | Raise e => result (h e)
    end.
Proof.
  destruct m as [tr [a|e]]; unfold try_, trace, result; simpl; [done|].
  by destruct (h e).
Qed.

Lemma result_ret {A} (a : A) : result (mret a : M A) = Ok a.
Proof. reflexivity. Qed.

Lemma trace_ret {A} (a : A) : trace (mret a : M A) = [].
Proof. reflexivity. Qed.

(** ** The link filter *)

Lemma href_allowed_spec h :
  href_allowed (Some h) = true <->
  h <> "" /\ forall w, In w bad_link_words -> contains w (lower h) = false.
Proof.
  unfold href_allowed. rewrite andb_true_iff, negb_true_iff.
  split; intros [H1 H2]; split.
  - by destruct h.
  - intros w Hw. destruct (contains w (lower h)) eqn:E; [|done].
    assert (existsb (fun bad_word => contains bad_word (lower h)) bad_link_words = true)
      as Hex by (apply existsb_exists; eauto).
    congruence.
  - by destruct h.
  - destruct (existsb _ bad_link_words) eqn:E; [|done].
    apply existsb_exists in E as [w [Hw Hc]]. rewrite H2 in Hc; done.
Qed.

Lemma filtered_links_cons l links :
  filtered_links (l :: links)
  = (href ← call 551 (GetAttribute (el_id l) "href") (el_href l);
     filtered ← filtered_links links;
     match href with
     | Some h => mret (if href_allowed href then (l, h) :: filtered else filtered)
     | None => mret filtered
     end).
Proof. reflexivity. Qed.

Lemma filtered_links_In links fl :
  result (filtered_links links) = Ok fl ->
  forall link h,
    In (link, h) fl <->
    In link links /\ el_href link = Ok (Some h) /\ href_allowed (Some h) = true.
Proof.
  revert fl; induction links as [|l links IH]; intros fl.
  - intros Heq link h; injection Heq as <-. simpl. tauto.
  - rewrite filtered_links_cons, result_bind. unfold call at 1; cbn [result snd].
    destruct (el_href l) as [href|e] eqn:Eh; [|discriminate].
    rewrite result_bind.
    destruct (result (filtered_links links)) as [fl'|e] eqn:Ef; [|discriminate].
    specialize (IH fl' eq_refl).
    destruct href as [h0|]; rewrite result_ret.
    + destruct (href_allowed (Some h0)) eqn:Ea;
        intros Heq link h; injection Heq as <-; cbn [In]; rewrite ?IH.
      * split.
        -- intros [[= <- <-] | (Hin & Hh & Hal)]; [by auto | by auto].
        -- intros ([<- | Hin] & Hh & Hal).
           ++ left. rewrite Eh in Hh. by injection Hh as <-.
           ++ right. auto.
      * split.
        -- intros (Hin & Hh & Hal). auto.
        -- intros ([<- | Hin] & Hh & Hal); [|by auto].
           rewrite Eh in Hh. injection Hh as <-. congruence.
    + intros Heq link h; injection Heq as <-. cbn [In]. rewrite IH. split.
      * intros (Hin & Hh & Hal). auto.
      * intros ([<- | Hin] & Hh & Hal); [congruence | by auto].
Qed.

(** C4: a link survives the filter exactly when its href is non-empty and
    its lower-cased form contains none of the blocklisted words; hence an
    href that contains a blocklisted word in any letter case is dropped. *)
Theorem link_filter_spec links fl :
  result (filtered_links links) = Ok fl ->
  (forall link h,
      In (link, h) fl <->
      In link links /\ el_href link = Ok (Some h) /\ h <> "" /\
      forall w, In w bad_link_words -> contains w (lower h) = false)
  /\ (forall link h w u a b,
         In w bad_link_words -> lower u = w -> h = a +:+ u +:+ b ->
         ~ In (link, h) fl).
Proof.
  intros Hfl. pose proof (filtered_links_In links fl Hfl) as Hin.
  assert (forall link h,
      In (link, h) fl <->
      In link links /\ el_href link = Ok (Some h) /\ h <> "" /\
      forall w, In w bad_link_words -> contains w (lower h) = false) as Hspec.
  { intros link h. rewrite Hin, href_allowed_spec. tauto. }
  split; [exact Hspec|].
  intros link h w u a b Hw Hu Hh Hmem.
  apply Hspec in Hmem as (_ & _ & _ & Hno).
  specialize (Hno w Hw).
  assert (contains w (lower h) = true) as Hyes.
  { apply contains_spec. exists (lower a), (lower b).
    by rewrite Hh, !lower_app, Hu. }
  congruence.
Qed.

Lemma link_filter_spec_witness :
  ~ In (sample_element 2 (Some "/Un-INSTALL/Tool") (Ok tt), "/Un-INSTALL/Tool")
       [(sample_element 1 (Some "/docs") (Ok tt), "/docs")].
Proof.
  apply (proj2 (link_filter_spec
           [sample_element 1 (Some "/docs") (Ok tt);
            sample_element 2 (Some "/Un-INSTALL/Tool") (Ok tt)]
           [(sample_element 1 (Some "/docs") (Ok tt), "/docs")] eq_refl)
         _ _ "install" "INSTALL" "/Un-" "/Tool");
    [simpl; tauto | reflexivity | reflexivity].
Defined.

(** ** The random choice *)



(** ** The click branch *)

Lemma trace_call {A} line o (r : outcome A) : trace (call line o r) = [ECall line o].
Proof. reflexivity. Qed.

Lemma result_call {A} line o (r : outcome A) : result (call line o r) = r.
Proof. reflexivity. Qed.

Lemma filtered_links_trace links :
  forallb before_click (trace (filtered_links links)) = true.
Proof.
  induction links as [|l links IH]; [done|].
  rewrite filtered_links_cons, trace_bind, forallb_app, trace_call, result_call.
  cbn [forallb before_click andb].
  destruct (el_href l) as [href|e]; [|done].
  rewrite trace_bind, forallb_app, IH.
  destruct (result (filtered_links links)); [|done].
  by destruct href.
Qed.

Lemma click_random_link_unfold cfg t :
  click_random_link cfg t
  = (links ← call 543 (QuerySelectorAll "a") (t_links t);
     match links with
     | _ :: _ =>
         filtered ← filtered_links links;
         match filtered with
         | _ :: _ =>
             random_choice ← randint 0 (Z.min 9 (Z.of_nat (length filtered) - 1))
                                     (t_entropy t);
             '(random_link, href) ← py_index filtered random_choice;
             if nonempty href && negb (startswith href "#")
                && negb (startswith href "javascript:")
             then click_or_navigate cfg t random_link href
             else mret tt
         | [] =>
             log "No suitable links found after filtering out install/uninstall links"
         end
     | [] => mret tt
     end).
Proof. reflexivity. Qed.

Lemma pure_bind {A B} (m : M A) (f : A -> M B) :
  trace m = [] ->
  (m ≫= f) = match result m with
             | Ok a => f a
             | Raise e => ([], Raise e)
             end.
Proof.
  destruct m as [tr [a|e]]; simpl; intros ->; [|done].
  unfold mbind, M_bind. by destruct (f a).
Qed.

Lemma randint_trace a b entropy : trace (randint a b entropy) = [].
Proof. unfold randint. by destruct (a <=? b). Qed.

Lemma py_index_trace {A} (l : list A) i : trace (py_index l i) = [].
Proof. unfold py_index. repeat case_match; done. Qed.

(** When a link is chosen, the branch is the lookups followed by the click
    attempt on that link. *)
Lemma click_random_link_chosen cfg t link href :
  chosen_link t = Some (link, href) ->
  exists pre,
    forallb before_click pre = true /\
    click_random_link cfg t
    = (pre ++ trace (click_or_navigate cfg t link href),
       result (click_or_navigate cfg t link href)).
Proof.
  unfold chosen_link. rewrite click_random_link_unfold. unfold call.
  destruct (t_links t) as [[|l ls]|e]; try discriminate.
  rewrite bind_ok.
  pose proof (filtered_links_trace (l :: ls)) as Hpre.
  destruct (filtered_links (l :: ls)) as [pre [[|f fs]|e]]; try discriminate.
  cbn [result snd trace fst] in *. rewrite bind_ok.
  rewrite result_bind.
  rewrite (pure_bind (randint _ _ _)) by apply randint_trace.
  destruct (result (randint 0 (Z.min 9 (Z.of_nat (length (f :: fs)) - 1)) (t_entropy t)))
    as [i|e]; [|discriminate].
  rewrite (pure_bind (py_index _ _)) by apply py_index_trace.
  destruct (result (py_index (f :: fs) i)) as [[link' href']|e]; [|discriminate].
  destruct (nonempty href' && negb (startswith href' "#")
            && negb (startswith href' "javascript:")); [|discriminate].
  intros [= -> ->].
  exists (ECall 543 (QuerySelectorAll "a") :: pre). split; [done|].
  reflexivity.
Qed.

(** When no link is chosen, the branch performs lookups and logging only. *)
Lemma click_random_link_not_chosen cfg t :
  chosen_link t = None ->
  forallb before_click (trace (click_random_link cfg t)) = true.
Proof.
  unfold chosen_link. rewrite click_random_link_unfold. unfold call.
  destruct (t_links t) as [[|l ls]|e]; try done.
  rewrite bind_ok.
  pose proof (filtered_links_trace (l :: ls)) as Hpre.
  destruct (filtered_links (l :: ls)) as [pre [[|f fs]|e]];
    cbn [result snd trace fst] in *.
  - intros _. rewrite bind_ok. cbn. by rewrite forallb_app, Hpre.
  - rewrite bind_ok, result_bind.
    rewrite (pure_bind (randint _ _ _)) by apply randint_trace.
    destruct (result (randint 0 (Z.min 9 (Z.of_nat (length (f :: fs)) - 1)) (t_entropy t)))
      as [i|e]; [|intros _; cbn; by rewrite app_nil_r].
    rewrite (pure_bind (py_index _ _)) by apply py_index_trace.
    destruct (result (py_index (f :: fs) i)) as [[link' href']|e];
      [|intros _; cbn; by rewrite app_nil_r].
    destruct (nonempty href' && negb (startswith href' "#")
              && negb (startswith href' "javascript:")); [discriminate|].
    intros _. cbn. by rewrite app_nil_r.
  - intros _. rewrite bind_raise. done.
Qed.

(** The click attempt navigates only as a fallback, and then to [full_url]. *)
Lemma click_or_navigate_goto cfg t link href line u :
  In (ECall line (Goto u)) (trace (click_or_navigate cfg t link href)) ->
  line = 575%N /\ u = full_url cfg href /\
  (el_click link = Ok tt -> exists e, t_wait_networkidle t = Raise e).
Proof.
  unfold click_or_navigate, log, call.
  destruct (el_click link) as [[]|e1]; [destruct (t_wait_networkidle t) as [[]|e2]|];
    destruct (t_goto_link t (full_url cfg href)) as [[]|e3];
    cbn; intros H; repeat (destruct H as [H|H]; try discriminate);
    try done; injection H as <- <-; repeat split; eauto; discriminate.
Qed.

Lemma before_click_no_goto pre line u :
  forallb before_click pre = true -> ~ In (ECall line (Goto u)) pre.
Proof.
  intros Hall Hin. rewrite forallb_forall in Hall.
  specialize (Hall _ Hin). simpl in Hall. by repeat case_match.
Qed.

(** C10: when the click branch navigates directly, the target is built from
    the href of the link it tried to click and the start URL alone: the href
    itself if it starts with "http", otherwise the start URL without its
    trailing slashes, a slash, and the href without its leading slashes. *)
Theorem fallback_url_resolved_against_start cfg t line u :
  In (ECall line (Goto u)) (trace (click_random_link cfg t)) ->
  exists link href j k,
    chosen_link t = Some (link, href) /\
    (startswith href "http" = true -> u = href) /\
    (startswith href "http" = false ->
       u = rstrip_slash (url cfg) +:+ "/" +:+ lstrip_slash href) /\
    url cfg = rstrip_slash (url cfg) +:+ slashes j /\
    (forall r, rstrip_slash (url cfg) <> r +:+ "/") /\
    href = slashes k +:+ lstrip_slash href /\
    startswith (lstrip_slash href) "/" = false.
Proof.
  intros Hin.
  destruct (chosen_link t) as [[link href]|] eqn:Ec.
  - destruct (click_random_link_chosen cfg t link href Ec) as (pre & Hpre & Heq).
    rewrite Heq in Hin. cbn [trace fst] in Hin.
    apply in_app_or in Hin as [Hin|Hin]; [by apply before_click_no_goto in Hin|].
    apply click_or_navigate_goto in Hin as (_ & -> & _).
    destruct (rstrip_slash_spec (url cfg)) as (j & Hj & Hr).
    destruct (lstrip_slash_spec href) as (k & Hk & Hl).
    exists link, href, j, k. unfold full_url.
    destruct (startswith href "http"); repeat split; auto; discriminate.
  - exfalso. eapply before_click_no_goto; [|exact Hin].
    by apply click_random_link_not_chosen.
Qed.

Lemma fallback_url_resolved_against_start_witness :
  exists link href j k,
    chosen_link (sample_tick 10 (Ok [sample_element 1 (Some "/docs/") (Raise "detached")]))
      = Some (link, href) /\
    (startswith href "http" = true -> "https://app.example/docs/" = href) /\
    (startswith href "http" = false ->
       "https://app.example/docs/"
       = rstrip_slash (url sample_config) +:+ "/" +:+ lstrip_slash href) /\
    url sample_config = rstrip_slash (url sample_config) +:+ slashes j /\
    (forall r, rstrip_slash (url sample_config) <> r +:+ "/") /\
    href = slashes k +:+ lstrip_slash href /\
    startswith (lstrip_slash href) "/" = false.
Proof.
  apply (fallback_url_resolved_against_start sample_config
           (sample_tick 10 (Ok [sample_element 1 (Some "/docs/") (Raise "detached")]))
           575%N "https://app.example/docs/").
  vm_compute. tauto.
Defined.

(** ** modify_auth_cookies *)

Lemma modify_auth_cookies_unfold env :
  modify_auth_cookies env
  = (all_cookies ← call 380 Cookies (me_cookies env);
     log (nl +:+ "==== MODIFYING AUTH COOKIES ====");;
     modified_cookies ← collect_modified all_cookies;
     match modified_cookies with
     | _ :: _ =>
         try_
           (call 402 ClearCookies (me_clear_cookies env);;
            cookie_names_to_modify ← cookie_names modified_cookies;
            original_cookies_to_keep ← keep_originals cookie_names_to_modify all_cookies;
            match original_cookies_to_keep with
            | _ :: _ =>
                call 411 (AddCookies original_cookies_to_keep)
                     (me_add_cookies env original_cookies_to_keep)
            | [] => mret tt
            end;;
            call 414 (AddCookies modified_cookies) (me_add_cookies env modified_cookies);;
            log ("Successfully modified " +:+ pretty (length modified_cookies)
                 +:+ " auth cookies");;
            try_
              (log "Reloading page to apply cookie changes";;
               call 420 (Reload (Some 30000) (Some "domcontentloaded")) (me_reload env))
              (fun reload_error =>
                 log ("Error during reload after cookie modification: " +:+ reload_error)))
           (fun e => log ("Error modifying auth cookies: " +:+ e))
     | [] => log "No auth cookies found to modify"
     end).
Proof. reflexivity. Qed.

Lemma collect_modified_cons c rest :
  collect_modified (c :: rest)
  = match c !! "expires" with
    | Some _ =>
        name ← getitem c "name";
        log ("Reset 'xxpires' for cookie: " +:+ py_str name);;
        modified_cookies ← collect_modified rest;
        mret (<["expires" := VInt 0]> c :: modified_cookies)
    | None => collect_modified rest
    end.
Proof. reflexivity. Qed.

Lemma collect_modified_no_expiry snapshot :
  (forall c, In c snapshot -> c !! "expires" = None) ->
  collect_modified snapshot = mret [].
Proof.
  induction snapshot as [|c rest IH]; intros Hall; [done|].
  rewrite collect_modified_cons, (Hall c) by (left; done).
  apply IH. intros d Hd. apply Hall. by right.
Qed.

(** C9: when no cookie of the snapshot carries an expiry, the function
    issues no browser call after the snapshot itself: nothing is cleared,
    nothing is added back, the page is not reloaded; it logs and returns. *)
Theorem modify_auth_cookies_no_expiry env snapshot :
  me_cookies env = Ok snapshot ->
  (forall c, In c snapshot -> c !! "expires" = None) ->
  modify_auth_cookies env
  = ([ ECall 380 Cookies;
       ELog (nl +:+ "==== MODIFYING AUTH COOKIES ====");
       ELog "No auth cookies found to modify" ], Ok tt).
Proof.
  intros Hsnap Hall. rewrite modify_auth_cookies_unfold, Hsnap.
  unfold call, log. rewrite !bind_ok.
  cbn [trace result fst snd].
  by rewrite (collect_modified_no_expiry snapshot Hall).
Qed.

Lemma modify_auth_cookies_no_expiry_witness :
  modify_auth_cookies (sample_modify_env [theme_session; sid_session])
  = ([ ECall 380 Cookies;
       ELog (nl +:+ "==== MODIFYING AUTH COOKIES ====");
       ELog "No auth cookies found to modify" ], Ok tt).
Proof.
  apply (modify_auth_cookies_no_expiry _ [theme_session; sid_session]);
    [reflexivity|].
  intros c [<-|[<-|[]]]; vm_compute; reflexivity.
Defined.

(** C1 fails on the code: with a snapshot of two cookies named [sid], one
    with an expiry and one without, everything is cleared and only the
    rewritten copy of the first is added back; the second, which lacks an
    expiry, is lost. *)
Theorem modify_auth_cookies_drops_same_name_cookie :
  has_expires sid_with_expiry = true /\
  has_expires sid_session = false /\
  In (ECall 402 ClearCookies)
     (trace (modify_auth_cookies (sample_modify_env [sid_with_expiry; sid_session]))) /\
  readded (trace (modify_auth_cookies (sample_modify_env [sid_with_expiry; sid_session])))
  = [zero_expiry sid_with_expiry] /\
  ~ In sid_session
       (readded (trace (modify_auth_cookies
                          (sample_modify_env [sid_with_expiry; sid_session])))).
Proof.
  assert (readded (trace (modify_auth_cookies
                            (sample_modify_env [sid_with_expiry; sid_session])))
          = [zero_expiry sid_with_expiry]) as Hre by (vm_compute; reflexivity).
  split; [vm_compute; reflexivity|].
  split; [vm_compute; reflexivity|].
  split; [vm_compute; tauto|].
  split; [exact Hre|].
  rewrite Hre. intros [Heq|[]].
  assert (zero_expiry sid_with_expiry !! "expires" = sid_session !! "expires")
    as Hx by (by rewrite Heq).
  vm_compute in Hx. discriminate.
Qed.

Lemma readded_app tr1 tr2 : readded (tr1 ++ tr2) = readded tr1 ++ readded tr2.
Proof.
  induction tr1 as [|e tr1 IH]; [done|].
  destruct e as [| | |line o]; simpl; try done.
  destruct o; simpl; try done. by rewrite IH, app_assoc.
Qed.

Lemma py_eq_refl v : py_eq v v = true.
Proof.
  destruct v as [s|z|b]; simpl.
  - by apply bool_decide_eq_true.
  - apply Z.eqb_refl.
  - apply Z.eqb_refl.
Qed.

Lemma collect_modified_result snapshot :
  (forall c, In c snapshot -> is_Some (c !! "name")) ->
  exists tr,
    collect_modified snapshot
    = (tr, Ok (map zero_expiry (List.filter has_expires snapshot))) /\
    readded tr = [].
Proof.
  induction snapshot as [|c rest IH]; intros Hname.
  - by exists [].
  - destruct IH as (tr & Hc & Hr); [intros d Hd; apply Hname; by right|].
    rewrite collect_modified_cons. cbn [List.filter]. unfold has_expires at 1.
    destruct (c !! "expires") as [x|] eqn:Ex; [|by exists tr].
    destruct (Hname c) as [n Hn]; [by left|].
    unfold getitem. rewrite Hn, Hc. unfold log.
    exists (ELog ("Reset 'xxpires' for cookie: " +:+ py_str n) :: tr).
    split; [|done].
    rewrite (pure_bind (mret n)) by done. rewrite result_ret, !bind_ok.
    by rewrite trace_ret, app_nil_r.
Qed.

Lemma cookie_names_result (cs : list cookie) :
  (forall c, In c cs -> is_Some (c !! "name")) ->
  exists names,
    cookie_names cs = mret names /\
    forall n, In n names <-> exists c, In c cs /\ c !! "name" = Some n.
Proof.
  induction cs as [|c rest IH]; intros Hname.
  - exists []. split; [done|]. intros n; split; [done | by intros (? & [] & _)].
  - destruct IH as (names & Hc & Hn); [intros d Hd; apply Hname; by right|].
    destruct (Hname c) as [n0 Hn0]; [by left|].
    exists (n0 :: names). split.
    + cbn [cookie_names]. unfold getitem. rewrite Hn0, Hc.
      rewrite (pure_bind (mret n0)) by done. rewrite result_ret.
      rewrite (pure_bind (mret names)) by done. by rewrite result_ret.
    + intros n. cbn [In]. rewrite Hn. split.
      * intros [<-|(d & Hd & Hdn)]; [exists c; auto | exists d; auto].
      * intros (d & [<-|Hd] & Hdn); [left; congruence | right; eauto].
Qed.

Lemma keep_originals_result names snapshot :
  (forall c, In c snapshot -> is_Some (c !! "name")) ->
  (forall c n, In c snapshot -> c !! "name" = Some n ->
               py_in n names = has_expires c) ->
  keep_originals names snapshot
  = mret (List.filter (fun c => negb (has_expires c)) snapshot).
Proof.
  induction snapshot as [|c rest IH]; intros Hname Hin; [done|].
  destruct (Hname c) as [n Hn]; [by left|].
  cbn [keep_originals List.filter]. unfold getitem.
  rewrite Hn, IH; [|intros d Hd; apply Hname; by right
                   |intros d m Hd; apply Hin; by right].
  rewrite (pure_bind (mret n)) by done. rewrite result_ret.
  rewrite (pure_bind (mret _)) by done. rewrite result_ret.
  rewrite (Hin c n); [|by left|done].
  by destruct (has_expires c).
Qed.

(** X5: When the calls succeed, every cookie has a name and no cookie without
    expiry shares its name with one that has an expiry, the cookies added
    back are the ones without expiry, unchanged, followed by the zeroed
    copies of the others. *)
Lemma modify_auth_cookies_readded env snapshot :
  me_cookies env = Ok snapshot ->
  me_clear_cookies env = Ok tt ->
  (forall cs, me_add_cookies env cs = Ok tt) ->
  (forall c, In c snapshot -> is_Some (c !! "name")) ->
  (exists c, In c snapshot /\ has_expires c = true) ->
  (forall c d n m, In c snapshot -> In d snapshot ->
     has_expires c = true -> has_expires d = false ->
     c !! "name" = Some n -> d !! "name" = Some m -> py_eq m n = false) ->
  readded (trace (modify_auth_cookies env))
  = List.filter (fun c => negb (has_expires c)) snapshot
    ++ map zero_expiry (List.filter has_expires snapshot).
Proof.
  intros Hsnap Hclear Hadd Hname (c0 & Hc0 & He0) Hdis.
  destruct (collect_modified_result snapshot Hname) as (trc & Hcol & Hrc).
  set (modified := map zero_expiry (List.filter has_expires snapshot)) in *.
  assert (forall c, In c modified -> is_Some (c !! "name")) as Hmname.
  { intros c [d [<- Hd]]%in_map_iff. apply filter_In in Hd as [Hd _].
    unfold zero_expiry. rewrite lookup_insert_ne by done. by apply Hname. }
  destruct (cookie_names_result modified Hmname) as (names & Hnames & Hnin).
  assert (forall c n, In c snapshot -> c !! "name" = Some n ->
                      py_in n names = has_expires c) as Hpyin.
  { intros c n Hc Hn. unfold py_in. destruct (has_expires c) eqn:Ec.
    - apply existsb_exists. exists n. split; [|apply py_eq_refl].
      apply Hnin. exists (zero_expiry c). split.
      + apply in_map. apply filter_In. auto.
      + unfold zero_expiry. by rewrite lookup_insert_ne.
    - destruct (existsb (py_eq n) names) eqn:Ex; [|done].
      apply existsb_exists in Ex as (m & Hm & Heq).
      apply Hnin in Hm as (d' & [d [<- Hd]]%in_map_iff & Hdn).
      apply filter_In in Hd as [Hd Hde].
      unfold zero_expiry in Hdn. rewrite lookup_insert_ne in Hdn by done.
      rewrite (Hdis d c m n Hd Hc Hde Ec Hdn Hn) in Heq. done. }
  assert (modified <> []) as Hne.
  { intros Hnil. assert (In (zero_expiry c0) modified) as Hin
      by (apply in_map, filter_In; auto).
    rewrite Hnil in Hin. done. }
  rewrite modify_auth_cookies_unfold.
  rewrite trace_bind, trace_call, result_call, Hsnap.
  rewrite trace_bind, trace_bind, Hcol.
  cbn [trace result fst snd log].
  destruct modified as [|m0 ms] eqn:Em; [done|]. rewrite <- Em in *.
  rewrite trace_try.
  match goal with
  | |- context [trace ?b ++ match result ?b with _ => _ end] => set (body := b)
  end.
  rewrite !readded_app, Hrc.
  assert (readded (match result body with
                   | Ok _ => []
                   | Raise e => trace (log ("Error modifying auth cookies: " +:+ e))
                   end) = []) as -> by (by destruct (result body)).
  cbn [readded app]. rewrite app_nil_r. subst body.
  rewrite trace_bind, trace_call, result_call, Hclear.
  rewrite trace_bind, Hnames, trace_ret, result_ret.
  rewrite trace_bind, (keep_originals_result names snapshot Hname Hpyin).
  rewrite trace_ret, result_ret.
  set (kept := List.filter (fun c => negb (has_expires c)) snapshot).
  rewrite trace_bind.
  assert (forall (m : M unit),
             m = match kept with
                 | _ :: _ => call 411 (AddCookies kept) (me_add_cookies env kept)
                 | [] => mret tt
                 end ->
             result m = Ok tt /\ readded (trace m) = kept) as Hkept.
  { intros m ->. destruct kept as [|k0 ks] eqn:Ek; [done|].
    rewrite result_call, trace_call, Hadd. cbn [readded]. by rewrite app_nil_r. }
  destruct (Hkept _ eq_refl) as [Hres Htr].
  rewrite Hres, !readded_app, Htr.
  rewrite trace_bind, trace_call, result_call, Hadd, !readded_app.
  cbn [readded app]. rewrite app_nil_r.
  rewrite trace_bind, readded_app. cbn [trace log fst readded app result snd].
  rewrite trace_try, trace_bind, readded_app. cbn [trace log fst readded app result snd].
  rewrite trace_call, result_bind. cbn [readded app result log snd].
  rewrite result_call.
  destruct (me_reload env); cbn [readded app]; by rewrite !app_nil_r.
Qed.

(** ** handle_cognito_login *)

Lemma first_visible_quiet elements :
  forallb quiet (trace (first_visible elements)) = true.
Proof.
  induction elements as [|el rest IH]; [done|].
  cbn [first_visible]. rewrite trace_bind, trace_call, result_call, forallb_app.
  destruct (el_is_visible el) as [[|]|e]; done.
Qed.

Lemma find_visible_element_quiet env selectors :
  forallb quiet (trace (find_visible_element env selectors)) = true.
Proof.
  induction selectors as [|sel rest IH]; [done|].
  cbn [find_visible_element].
  rewrite trace_bind, trace_call, result_call, forallb_app.
  destruct (le_query_selector_all env sel) as [els|e]; [|done].
  rewrite trace_bind, forallb_app, first_visible_quiet.
  destruct (result (first_visible els)) as [[el|]|e]; done.
Qed.

Lemma ends_with_prompt_app pre tr :
  forallb quiet pre = true -> ends_with_prompt tr -> ends_with_prompt (pre ++ tr).
Proof.
  intros Hq (pre' & text & -> & Hq' & Hp).
  exists (pre ++ pre'), text. rewrite forallb_app, Hq, Hq', app_assoc. auto.
Qed.

Lemma phase_bind_ok {A} b (m : M A) (f : A -> M unit) a :
  result m = Ok a -> forallb quiet (trace m) = true ->
  phase b (f a) -> phase b (m ≫= f).
Proof.
  intros Hr Hq. unfold phase, done_quietly, prompt_or_raise.
  rewrite result_bind, trace_bind, Hr, forallb_app, Hq.
  destruct b; [done|].
  intros [(e & He & Hqe) | (Hok & Hp)]; [left; eauto | right].
  split; [done | by apply ends_with_prompt_app].
Qed.

Lemma phase_bind_raise {A} (m : M A) (f : A -> M unit) e :
  result m = Raise e -> forallb quiet (trace m) = true ->
  phase false (m ≫= f).
Proof.
  intros Hr Hq. left. exists e.
  by rewrite result_bind, trace_bind, Hr, app_nil_r.
Qed.

Lemma phase_prompt message text :
  is_prompt text = true ->
  phase false (log message;; print text;; sleep 60).
Proof.
  intros Hp. right. split; [done|].
  exists [ELog message], text. auto.
Qed.

Ltac step_ok := eapply phase_bind_ok; [reflexivity | reflexivity |].
Ltac step_raise := eapply phase_bind_raise; [reflexivity | reflexivity].

(** A browser call whose answer is still open: continue if it went through,
    stop with the exception otherwise. *)
Ltac step_call r :=
  let e := fresh "e" in
  destruct r as [[]|e]; cbn [succeeded andb]; [step_ok | step_raise].

Lemma submit_login_phase env : phase (submit_clicked env) (submit_login env).
Proof.
  unfold submit_login, submit_clicked.
  pose proof (find_visible_element_quiet env submit_selectors) as Hq.
  destruct (find_visible_element env submit_selectors) as [tr [[sb|]|e]] eqn:Ef;
    cbn [result trace fst snd] in *.
  - eapply phase_bind_ok; [reflexivity | exact Hq |].
    do 2 step_ok. step_call (el_click sb).
    split.
    + rewrite result_try, !result_bind.
      cbn [result log snd]. rewrite !result_try.
      destruct (le_wait_load_after env) as [[]|?];
        destruct (le_wait_function env) as [[]|?]; cbn;
        try destruct (negb _); reflexivity.
    + rewrite trace_try, result_bind. cbn [result log snd].
      destruct (le_wait_load_after env) as [[]|?];
        destruct (le_wait_function env) as [[]|?]; cbn;
        try destruct (negb _); reflexivity.
  - eapply phase_bind_ok; [reflexivity | exact Hq |].
    by apply phase_prompt.
  - eapply phase_bind_raise; [reflexivity | exact Hq].
Qed.

Lemma fill_login_form_phase creds env :
  phase (form_filled creds env) (fill_login_form creds env).
Proof.
  unfold fill_login_form, form_filled, field_filled.
  do 3 step_ok.
  pose proof (find_visible_element_quiet env username_selectors) as Hqu.
  destruct (find_visible_element env username_selectors) as [tru [[uf|]|e]];
    cbn [result trace fst snd andb] in *.
  - eapply phase_bind_ok; [reflexivity | exact Hqu |]. step_ok.
    step_call (el_click uf). step_call (el_fill uf "").
    step_call (el_fill uf (COGNITO_USERNAME creds)). do 2 step_ok.
    pose proof (find_visible_element_quiet env password_selectors) as Hqp.
    destruct (find_visible_element env password_selectors) as [trp [[pf|]|e]];
      cbn [result trace fst snd andb] in *.
    + eapply phase_bind_ok; [reflexivity | exact Hqp |]. step_ok.
      step_call (el_click pf). step_call (el_fill pf "").
      step_call (el_fill pf (COGNITO_PASSWORD creds)). do 2 step_ok.
      apply submit_login_phase.
    + eapply phase_bind_ok; [reflexivity | exact Hqp |]. by apply phase_prompt.
    + eapply phase_bind_raise; [reflexivity | exact Hqp].
  - eapply phase_bind_ok; [reflexivity | exact Hqu |]. by apply phase_prompt.
  - eapply phase_bind_raise; [reflexivity | exact Hqu].
Qed.

(** The [try]/[except] around the form: an exception ends in the prompt too. *)
Lemma phase_try b (m : M unit) message text :
  is_prompt text = true ->
  phase b m ->
  result (try_ m (fun e => log (message e);; print text;; sleep 60)) = Ok tt /\
  if b then forallb quiet (trace (try_ m (fun e => log (message e);; print text;; sleep 60))) = true
  else ends_with_prompt (trace (try_ m (fun e => log (message e);; print text;; sleep 60))).
Proof.
  intros Hp. rewrite result_try, trace_try. destruct b; cbn [phase].
  - intros [-> Hq]. by rewrite app_nil_r.
  - intros [(e & -> & Hq) | (-> & Hewp)].
    + split; [done|]. apply ends_with_prompt_app; [done|].
      exists [ELog (message e)], text. auto.
    + by rewrite app_nil_r.
Qed.

Lemma handle_cognito_login_result creds env :
  result (handle_cognito_login creds env) = Ok tt.
Proof.
  unfold handle_cognito_login. rewrite result_try.
  by destruct (result _) as [[]|e].
Qed.

(** C7 (as the code has it): the login handler never raises.  Unless every
    step up to and including the click on the submit button went through,
    its trace ends with a manual-login prompt followed by the 60-second
    wait, after at most some one-second pauses; once the form is submitted
    nothing is printed and no long wait is made, whatever the waits that
    follow the click answer. *)
Theorem handle_cognito_login_prompts creds env :
  result (handle_cognito_login creds env) = Ok tt /\
  (form_submitted creds env = false ->
     ends_with_prompt (trace (handle_cognito_login creds env))) /\
  (form_submitted creds env = true ->
     forallb quiet (trace (handle_cognito_login creds env)) = true).
Proof.
  unfold handle_cognito_login, form_submitted.
  destruct (le_wait_load env) as [[]|e0]; cbn [succeeded andb].
  - destruct (nonempty (COGNITO_USERNAME creds) && nonempty (COGNITO_PASSWORD creds))
      eqn:Ecred; cbn [andb].
    + destruct (le_is_closed env) eqn:Eclosed; cbn [negb andb].
      * split; [done|]. split; [intros _ | discriminate].
        eexists [_; _; _; _; _], _. split; [reflexivity | done].
      * pose proof (phase_try (form_filled creds env) (fill_login_form creds env)
                      (fun e => "Error during login process: " +:+ e)
                      "Login error. Please login manually within 60 seconds."
                      eq_refl (fill_login_form_phase creds env)) as Hinner.
        cbv beta in Hinner.
        set (inner := try_ (fill_login_form creds env) _) in *. clearbody inner.
        destruct inner as [tr r], Hinner as [Hres Htr].
        cbn [result trace fst snd] in Hres, Htr. subst r.
        unfold call, log. rewrite !bind_ok. cbn [try_ result trace fst snd].
        split; [done|]. destruct (form_filled creds env).
        -- split; [discriminate | intros _]. by rewrite !forallb_app, Htr.
        -- split; [intros _ | discriminate].
           repeat (apply ends_with_prompt_app; [done|]). exact Htr.
    + split; [done|]. split; [intros _ | discriminate].
      eexists [_; _; _], _. split; [reflexivity | done].
  - split; [done|]. split; [intros _ | discriminate].
    eexists [_; _], _. split; [reflexivity | done].
Qed.

Lemma handle_cognito_login_prompts_witness :
  ends_with_prompt
    (trace (handle_cognito_login
              {| COGNITO_USERNAME := "operator"; COGNITO_PASSWORD := "" |}
              (sample_login_env (Ok tt))))
  /\ forallb quiet
       (trace (handle_cognito_login sample_creds (sample_login_env (Ok tt)))) = true.
Proof.
  split.
  - apply (proj1 (proj2 (handle_cognito_login_prompts
                           {| COGNITO_USERNAME := "operator"; COGNITO_PASSWORD := "" |}
                           (sample_login_env (Ok tt))))).
    vm_compute. reflexivity.
  - apply (proj2 (proj2 (handle_cognito_login_prompts sample_creds
                           (sample_login_env (Ok tt))))).
    vm_compute. reflexivity.
Defined.

(** C7 (as stated) fails: with credentials and all three elements present,
    a timeout of the wait that follows the submit click is an exception
    raised during the scripted login, yet it is only logged: nothing is
    printed and no 60-second wait is made. *)
Lemma login_timeout_after_submit_not_prompted :
  le_wait_function (sample_login_env (Raise "Timeout 10000ms exceeded.")) 
  = Raise "Timeout 10000ms exceeded." /\
  In (ECall 302 (WaitForFunction "() => true" 10000))
     (trace (handle_cognito_login sample_creds
               (sample_login_env (Raise "Timeout 10000ms exceeded.")))) /\
  In (ELog "Error waiting for URL change: Timeout 10000ms exceeded.")
     (trace (handle_cognito_login sample_creds
               (sample_login_env (Raise "Timeout 10000ms exceeded.")))) /\
  (forall text,
      ~ In (EPrint text)
           (trace (handle_cognito_login sample_creds
                     (sample_login_env (Raise "Timeout 10000ms exceeded."))))) /\
  ~ In (ESleep 60)
       (trace (handle_cognito_login sample_creds
                 (sample_login_env (Raise "Timeout 10000ms exceeded.")))).
Proof.
  assert (forallb quiet
            (trace (handle_cognito_login sample_creds
                      (sample_login_env (Raise "Timeout 10000ms exceeded."))))
          = true) as Hq by (vm_compute; reflexivity).
  rewrite forallb_forall in Hq.
  split; [reflexivity|].
  split; [vm_compute; tauto|].
  split; [vm_compute; tauto|].
  split.
  - intros text Hin. by apply Hq in Hin.
  - intros Hin. by apply Hq in Hin.
Qed.

(** ** The scheduler *)

Lemma actions_app tr1 tr2 : actions (tr1 ++ tr2) = actions tr1 ++ actions tr2.
Proof. apply omap_app. Qed.

(** Computations whose trace carries no scheduler action. *)
Lemma silent_bind {A B} (m : M A) (f : A -> M B) :
  actions (trace m) = [] -> (forall a, actions (trace (f a)) = []) ->
  actions (trace (m ≫= f)) = [].
Proof.
  intros Hm Hf. rewrite trace_bind, actions_app, Hm.
  destruct (result m); [apply Hf | done].
Qed.

Lemma silent_try {A} (m : M A) (h : string -> M A) :
  actions (trace m) = [] -> (forall e, actions (trace (h e)) = []) ->
  actions (trace (try_ m h)) = [].
Proof.
  intros Hm Hh. rewrite trace_try, actions_app, Hm.
  destruct (result m); [done | apply Hh].
Qed.

Lemma silent_call {A} line o (r : outcome A) :
  action_of (ECall line o) = None -> actions (trace (call line o r)) = [].
Proof.
  intros H. rewrite trace_call. unfold actions.
  change (omap action_of [ECall line o])
    with (match action_of (ECall line o) with
          | Some a => [a]
          | None => []
          end).
  by rewrite H.
Qed.

Create HintDb silent.

Ltac silent :=
  repeat first
    [ apply silent_call; reflexivity
    | solve [auto with silent]
    | apply silent_bind; [|intros]
    | apply silent_try; [|intros]
    | reflexivity
    | match goal with
      | |- actions (trace (match ?x with _ => _ end)) = [] => destruct x
      end ].

Lemma first_visible_silent elements : actions (trace (first_visible elements)) = [].
Proof.
  induction elements as [|el rest IH]; [done|].
  cbn [first_visible]. silent.
Qed.
#[local] Hint Resolve first_visible_silent : silent.

Lemma find_visible_element_silent env selectors :
  actions (trace (find_visible_element env selectors)) = [].
Proof.
  induction selectors as [|sel rest IH]; [done|].
  cbn [find_visible_element]. silent.
Qed.
#[local] Hint Resolve find_visible_element_silent : silent.

Lemma handle_cognito_login_silent creds env :
  actions (trace (handle_cognito_login creds env)) = [].
Proof.
  unfold handle_cognito_login, fill_login_form, submit_login. silent.
Qed.
#[local] Hint Resolve handle_cognito_login_silent : silent.

Lemma check_and_handle_cognito_login_silent creds current_url env :
  actions (trace (check_and_handle_cognito_login creds current_url env)) = [].
Proof.
  unfold check_and_handle_cognito_login. silent.
Qed.

Lemma check_and_handle_cognito_login_result creds current_url env :
  exists handled, result (check_and_handle_cognito_login creds current_url env) = Ok handled.
Proof.
  unfold check_and_handle_cognito_login.
  destruct (contains "awscognito" current_url || contains "amazoncognito" current_url);
    [|by exists false].
  exists true. rewrite !result_bind.
  by rewrite handle_cognito_login_result.
Qed.

Lemma capture_and_report_silent json_dumps initial_cookies current_cookies t :
  actions (trace (capture_and_report json_dumps initial_cookies current_cookies t)) = [].
Proof. unfold capture_and_report. silent. Qed.

Lemma collect_modified_silent cs : actions (trace (collect_modified cs)) = [].
Proof.
  induction cs as [|c rest IH]; [done|].
  rewrite collect_modified_cons. unfold getitem. silent.
Qed.
#[local] Hint Resolve collect_modified_silent : silent.

Lemma cookie_names_silent cs : actions (trace (cookie_names cs)) = [].
Proof.
  induction cs as [|c rest IH]; [done|].
  cbn [cookie_names]. unfold getitem. silent.
Qed.
#[local] Hint Resolve cookie_names_silent : silent.

Lemma keep_originals_silent names cs : actions (trace (keep_originals names cs)) = [].
Proof.
  induction cs as [|c rest IH]; [done|].
  cbn [keep_originals]. unfold getitem. silent.
Qed.
#[local] Hint Resolve keep_originals_silent : silent.

Lemma modify_auth_cookies_actions env :
  actions (trace (modify_auth_cookies env)) = [ModifyCookies].
Proof.
  rewrite modify_auth_cookies_unfold, trace_bind, trace_call, actions_app.
  change (actions [ECall 380 Cookies]) with [ModifyCookies].
  assert (actions match result (call 380 Cookies (me_cookies env)) with
                  | Ok a => _ | Raise _ => []
                  end = []) as ->; [|done].
  destruct (result _) as [all_cookies|e]; [|done].
  silent.
Qed.

Lemma actions_cons e tr :
  actions (e :: tr)
  = match action_of e with
    | Some a => a :: actions tr
    | None => actions tr
    end.
Proof. reflexivity. Qed.

Lemma before_click_silent tr : forallb before_click tr = true -> actions tr = [].
Proof.
  induction tr as [|e tr IH]; [done|]. cbn [forallb].
  intros [He Htr]%andb_true_iff. rewrite actions_cons, (IH Htr).
  destruct e as [| | |line o]; try done.
  destruct o; try done; simpl in He; by repeat case_match.
Qed.

Lemma click_or_navigate_actions cfg t link href :
  actions (trace (click_or_navigate cfg t link href)) = [ClickLink].
Proof.
  unfold click_or_navigate, call, log.
  destruct (el_click link) as [[]|e1]; [destruct (t_wait_networkidle t) as [[]|e2]|];
    destruct (t_goto_link t (full_url cfg href)) as [[]|e3]; reflexivity.
Qed.

Lemma click_random_link_actions cfg t :
  actions (trace (click_random_link cfg t))
  = match chosen_link t with
    | Some _ => [ClickLink]
    | None => []
    end.
Proof.
  destruct (chosen_link t) as [[link href]|] eqn:Ec.
  - destruct (click_random_link_chosen cfg t link href Ec) as (pre & Hpre & ->).
    cbn [trace fst]. by rewrite actions_app, (before_click_silent pre Hpre),
      click_or_navigate_actions.
  - apply before_click_silent. by apply click_random_link_not_chosen.
Qed.

Lemma scheduler_branch_actions cfg clk t current_time :
  actions (trace (scheduler_branch cfg clk t current_time))
  = match due cfg clk current_time with
    | ClickLink =>
        match chosen_link t with
        | Some _ => [ClickLink]
        | None => []
        end
    | a => [a]
    end.
Proof.
  unfold scheduler_branch, due.
  destruct (cookie_mod_interval cfg <=? current_time - last_cookie_mod_time clk).
  { rewrite trace_bind. cbn [trace result log fst snd].
    rewrite trace_bind, trace_try, !actions_app, modify_auth_cookies_actions.
    rewrite result_try.
    destruct (result (modify_auth_cookies (t_modify t))); reflexivity. }
  destruct (return_interval cfg <=? current_time - last_return_time clk).
  { unfold call, log. by destruct (t_goto_start t) as [[]|e]. }
  destruct (refresh_interval cfg <=? current_time - last_refresh_time clk).
  { unfold call, log. by destruct (t_refresh t) as [[]|e]. }
  rewrite trace_bind, actions_app, click_random_link_actions.
  destruct (result (click_random_link cfg t)); cbn [trace mret M_ret fst actions omap];
    by rewrite app_nil_r.
Qed.




(** ** Exceptions in the browsing loop *)

Lemma filtered_links_raises links e :
  result (filtered_links links) = Raise e ->
  exists link, In link links /\ el_href link = Raise e.
Proof.
  induction links as [|l links IH]; [discriminate|].
  rewrite filtered_links_cons, result_bind, result_call.
  destruct (el_href l) as [href|e'] eqn:Eh.
  - rewrite result_bind.
    destruct (result (filtered_links links)) as [fl|e'] eqn:Ef.
    + destruct href; discriminate.
    + intros [= ->]. destruct (IH eq_refl) as (link & Hin & Hl).
      exists link. split; [by right | done].
  - intros [= ->]. exists l. split; [by left | done].
Qed.

Lemma click_or_navigate_result cfg t link href :
  result (click_or_navigate cfg t link href) = Ok tt.
Proof.
  unfold click_or_navigate, call, log.
  destruct (el_click link) as [[]|e1]; [destruct (t_wait_networkidle t) as [[]|e2]|];
    destruct (t_goto_link t (full_url cfg href)) as [[]|e3]; reflexivity.
Qed.

Lemma random_choice_result {A} (f : A) (fs : list A) entropy :
  exists x,
    result (random_choice ← randint 0 (Z.min 9 (Z.of_nat (length (f :: fs)) - 1)) entropy;
            py_index (f :: fs) random_choice) = Ok x.
Proof.
  set (hi := Z.min 9 (Z.of_nat (length (f :: fs)) - 1)).
  assert (0 <= hi) as Hhi by (unfold hi; simpl; lia).
  pose proof (Z.mod_pos_bound entropy (hi - 0 + 1) ltac:(lia)) as Hmod.
  unfold randint. destruct (Z.leb_spec 0 hi); [|lia].
  rewrite (pure_bind (mret _)) by done. rewrite result_ret.
  set (i := 0 + entropy mod (hi - 0 + 1)).
  assert (0 <= i < Z.of_nat (length (f :: fs))) as Hi by (unfold i, hi in *; lia).
  unfold py_index.
  destruct (Z.ltb_spec i 0); [lia|].
  destruct (Z.leb_spec 0 i); [|lia].
  destruct (Z.ltb_spec i (Z.of_nat (length (f :: fs)))); [|lia].
  cbn [andb].
  destruct (lookup_lt_is_Some_2 (f :: fs) (Z.to_nat i) ltac:(lia)) as [x Hx].
  exists x. by rewrite Hx.
Qed.

(** The click branch raises only when the anchor query or an href read does. *)
Lemma click_random_link_raises cfg t e :
  result (click_random_link cfg t) = Raise e ->
  t_links t = Raise e \/
  exists links link, t_links t = Ok links /\ In link links /\ el_href link = Raise e.
Proof.
  rewrite click_random_link_unfold, result_bind, result_call.
  destruct (t_links t) as [[|l ls]|e'] eqn:El; [discriminate| |intros [= ->]; by left].
  rewrite result_bind.
  destruct (result (filtered_links (l :: ls))) as [[|f fs]|e'] eqn:Ef.
  - discriminate.
  - destruct (random_choice_result f fs (t_entropy t)) as [[link href] Hx].
    rewrite result_bind in Hx. rewrite result_bind.
    destruct (result (randint _ _ _)) as [i|e']; [|discriminate].
    rewrite result_bind, Hx.
    destruct (nonempty href && negb (startswith href "#")
              && negb (startswith href "javascript:")).
    + by rewrite click_or_navigate_result.
    + discriminate.
  - intros [= ->]. right.
    destruct (filtered_links_raises _ _ Ef) as (link & Hin & Hl).
    by exists (l :: ls), link.
Qed.

Lemma scheduler_branch_raises cfg clk t current_time e :
  result (scheduler_branch cfg clk t current_time) = Raise e ->
  due cfg clk current_time = ClickLink /\ result (click_random_link cfg t) = Raise e.
Proof.
  unfold scheduler_branch, due.
  destruct (cookie_mod_interval cfg <=? current_time - last_cookie_mod_time clk).
  { rewrite !result_bind. cbn [result log snd]. rewrite result_try.
    destruct (result (modify_auth_cookies (t_modify t))); discriminate. }
  destruct (return_interval cfg <=? current_time - last_return_time clk).
  { unfold call, log. destruct (t_goto_start t) as [[]|e']; discriminate. }
  destruct (refresh_interval cfg <=? current_time - last_refresh_time clk).
  { unfold call, log. destruct (t_refresh t) as [[]|e']; discriminate. }
  rewrite result_bind.
  destruct (result (click_random_link cfg t)); [discriminate|].
  by intros [= ->].
Qed.

Lemma capture_and_report_result json_dumps initial_cookies current_cookies t :
  result (capture_and_report json_dumps initial_cookies current_cookies t) = Ok tt.
Proof.
  unfold capture_and_report, call, log, sleep.
  destruct (t_wait_before_reload t) as [[]|?], (t_reload t) as [[]|?],
    (t_wait_after_reload t) as [[]|?], (t_request_headers t) as [h|];
    try destruct (bool_decide (h = ∅));
    destruct (List.filter _ current_cookies); reflexivity.
Qed.

(** An iteration lets an exception escape only if it comes from one of the
    three browser reads made outside any [try]: the cookie snapshot of
    line 509, the anchor query of line 543 or an href read of line 551. *)
Lemma tick_body_raises json_dumps cfg creds initial_cookies clk t e :
  result (tick_body json_dumps cfg creds initial_cookies clk t) = Raise e ->
  t_cookies t = Raise e \/
  (due cfg clk (t_current_time t) = ClickLink /\
   (t_links t = Raise e \/
    exists links link, t_links t = Ok links /\ In link links /\ el_href link = Raise e)).
Proof.
  unfold tick_body.
  destruct (check_and_handle_cognito_login_result creds (t_url_at_check t) (t_login t))
    as [handled Hh].
  rewrite result_bind, Hh, result_bind, result_call.
  destruct (t_cookies t) as [cs|e']; [|intros [= ->]; by left].
  rewrite !result_bind. cbn [result log snd].
  destruct (result (scheduler_branch cfg clk t (t_current_time t))) as [clk'|e'] eqn:Es.
  - rewrite result_bind, capture_and_report_result. discriminate.
  - intros [= ->]. right.
    apply scheduler_branch_raises in Es as [Hdue Hclick].
    split; [done|]. by apply (click_random_link_raises cfg).
Qed.

(** X20: With those three reads answering, the loop runs through its ticks
    without an exception, whatever else the browser raises. *)
Lemma browse_loop_no_exception json_dumps cfg creds initial_cookies start_time ticks :
  Forall (fun t =>
            succeeded (t_cookies t) = true /\
            exists links, t_links t = Ok links /\
                          Forall (fun link => succeeded (el_href link) = true) links)
         ticks ->
  forall clk, exists ending,
    result (browse_loop json_dumps cfg creds initial_cookies start_time clk ticks)
    = Ok ending.
Proof.
  induction 1 as [|t rest (Hc & links & Hl & Hh) _ IH]; intros clk; [by exists TicksExhausted|].
  cbn [browse_loop].
  destruct (t_time_check t - start_time <? browse_duration cfg);
    [|by exists DurationElapsed].
  rewrite result_bind.
  destruct (result (tick_body json_dumps cfg creds initial_cookies clk t))
    as [clk'|e] eqn:Et; [apply IH|].
  exfalso. apply tick_body_raises in Et as [Hr | (_ & [Hr | (ls & link & Hls & Hin & Hr)])].
  - by rewrite Hr in Hc.
  - congruence.
  - rewrite Hl in Hls. injection Hls as <-.
    rewrite Forall_forall in Hh. specialize (Hh link). rewrite Hr in Hh.
    apply list_elem_of_In in Hin. by specialize (Hh Hin).
Qed.

(** C3 fails on the code: when the anchor query of line 543 raises, the
    exception is not caught inside the iteration and is not logged; it
    leaves the loop although the next reading of the clock is still within
    the browsing duration. *)
Theorem browse_loop_stops_on_link_query_failure :
  browse_loop sample_json_dumps sample_config sample_creds [] 0 sample_clock
    [ sample_tick 10 (Raise "Target page, context or browser has been closed");
      sample_tick 20 (Ok []) ]
  = ([ ECall 509 Cookies;
       ELog (nl +:+ "==== CURRENT REQUEST ====");
       ELog "Current URL: https://app.example/";
       ELog "Cookies count: 1";
       ECall 543 (QuerySelectorAll "a") ],
     Raise "Target page, context or browser has been closed")
  /\ t_time_check (sample_tick 20 (Ok [])) - 0 < browse_duration sample_config.
Proof. split; vm_compute; reflexivity. Qed.

(** ** More on calculate_header_size *)

Lemma utf8_len_nonneg s : 0 <= utf8_len s.
Proof. induction s as [|a s IH]; simpl; [lia | destruct (_ <? _)%N; lia]. Qed.

Lemma entry_size_min kv : 4 <= entry_size kv.
Proof.
  unfold entry_size.
  pose proof (utf8_len_nonneg kv.1). pose proof (utf8_len_nonneg (py_str kv.2)). lia.
Qed.

Lemma sum_entries_perm l1 l2 : l1 ≡ₚ l2 -> sum_entries l1 = sum_entries l2.
Proof.
  induction 1 as [|x l1 l2 _ IH|x y l|l1 l2 l3 _ IH1 _ IH2]; simpl;
    [done | by rewrite IH | lia | by rewrite IH1].
Qed.

Lemma sum_entries_min l : 4 * Z.of_nat (length l) <= sum_entries l.
Proof.
  induction l as [|kv l IH]; [simpl; lia|].
  cbn [sum_entries foldr length]. fold (sum_entries l).
  pose proof (entry_size_min kv). lia.
Qed.

Lemma calculate_header_size_nonempty (h : headers) :
  h <> ∅ -> calculate_header_size (Some h) = sum_entries (map_to_list h) + 2.
Proof.
  intros Hne. unfold calculate_header_size.
  rewrite bool_decide_false by done.
  by rewrite map_fold_foldr, header_fold_sum.
Qed.

(** X1: Adding a header under a fresh name adds the size of its line; the first
    header also brings the final CRLF. *)
Theorem calculate_header_size_insert (h : headers) key v :
  h !! key = None ->
  calculate_header_size (Some (<[key := v]> h))
  = calculate_header_size (Some h) + entry_size (key, v)
    + (if bool_decide (h = ∅) then 2 else 0).
Proof.
  intros Hfresh.
  rewrite calculate_header_size_nonempty by apply insert_non_empty.
  rewrite (sum_entries_perm _ _ (map_to_list_insert h key v Hfresh)).
  cbn [sum_entries foldr]. fold (sum_entries (map_to_list h)).
  case_bool_decide as Hempty.
  - subst h. rewrite map_to_list_empty.
    assert (calculate_header_size (Some (∅ : headers)) = 0) as -> by done.
    cbn [sum_entries foldr]. lia.
  - rewrite calculate_header_size_nonempty by done. lia.
Qed.

Lemma calculate_header_size_insert_witness :
  calculate_header_size (Some (<["cookie" := VStr "sid=1"]> theme_session))
  = calculate_header_size (Some theme_session) + entry_size ("cookie", VStr "sid=1")
    + (if bool_decide (theme_session = ∅) then 2 else 0).
Proof. apply calculate_header_size_insert. vm_compute. reflexivity. Defined.

(** X2: The size is never between 1 and 5: a mapping with n > 0 headers weighs
    at least 4 n + 2 bytes, whatever the names and values. *)
Theorem calculate_header_size_lower_bound (h : headers) :
  h <> ∅ ->
  4 * Z.of_nat (size h) + 2 <= calculate_header_size (Some h) /\
  6 <= calculate_header_size (Some h).
Proof.
  intros Hne. rewrite calculate_header_size_nonempty by done.
  pose proof (sum_entries_min (map_to_list h)) as Hmin.
  rewrite length_map_to_list in Hmin.
  assert (size h <> 0%nat) as Hsz by (by intros ?%map_size_empty_inv).
  lia.
Qed.

Lemma calculate_header_size_lower_bound_witness :
  4 * Z.of_nat (size sid_session) + 2 <= calculate_header_size (Some sid_session) /\
  6 <= calculate_header_size (Some sid_session).
Proof. apply calculate_header_size_lower_bound. vm_compute. discriminate. Defined.

(** ** More on log_message *)

Lemma log_message_grows ts message st :
  exists chunk printed,
    log_file (log_message ts message st) = log_file st ++ [chunk] /\
    console (log_message ts message st) = console st ++ printed /\
    (length printed <= 1)%nat.
Proof.
  unfold log_message.
  destruct (existsb _ url_indicators) eqn:E.
  - destruct (print_first_indicator_one ts message _ E)
      as (ind & t & _ & _ & _ & Hp).
    eexists _, _. cbn [log_file console]. rewrite Hp. split; [done|]. split; [done|].
    simpl. lia.
  - destruct (contains complete_marker message || contains "Starting " message).
    + eexists _, [_]. cbn [log_file console]. split; [done|]. split; [done|]. simpl. lia.
    + eexists _, []. cbn [log_file console]. rewrite app_nil_r. split; [done|].
      split; [done|]. simpl. lia.
Qed.

Lemma log_messages_cons ts message entries st :
  log_messages ((ts, message) :: entries) st
  = log_messages entries (log_message ts message st).
Proof. reflexivity. Qed.

(** X3: The log is append-only: a run of calls leaves what the file and the
    console held in place, appends exactly one chunk per call to the file
    and at most one line per call to the console. *)
Theorem log_messages_append_only entries st :
  exists chunks printed,
    log_file (log_messages entries st) = log_file st ++ chunks /\
    console (log_messages entries st) = console st ++ printed /\
    length chunks = length entries /\
    (length printed <= length entries)%nat.
Proof.
  revert st. induction entries as [|[ts message] entries IH]; intros st.
  - exists [], []. cbn. by rewrite !app_nil_r.
  - rewrite log_messages_cons.
    destruct (IH (log_message ts message st)) as (chunks & printed & Hf & Hc & Hl & Hp).
    destruct (log_message_grows ts message st) as (chunk & line & Hf1 & Hc1 & Hl1).
    exists (chunk :: chunks), (line ++ printed).
    rewrite Hf, Hc, Hf1, Hc1, <- !app_assoc.
    repeat split; [simpl; lia|]. rewrite length_app. simpl. lia.
Qed.

Lemma contains_char_app (a : ascii) s1 s2 :
  contains (String a "") (s1 +:+ s2)
  = contains (String a "") s1 || contains (String a "") s2.
Proof.
  induction s1 as [|c s1 IH]; str_simpl.
  - reflexivity.
  - cbn [contains startswith]. rewrite IH.
    by destruct (Ascii.eqb c a).
Qed.

Lemma first_line_single s : contains nl (first_line s) = false.
Proof.
  induction s as [|a s IH]; [reflexivity|]. cbn [first_line].
  destruct (Ascii.eqb a "010"%char) eqn:E; [reflexivity|].
  unfold nl in *. cbn [contains startswith]. by rewrite E, IH.
Qed.

(** X4: For a message with a URL indicator the console gets a single line: what
    is printed contains no line break unless the timestamp does, however
    many lines the message has. *)
Theorem log_message_url_line_single ts message st :
  has_indicator message = true ->
  contains nl ts = false ->
  exists line,
    console (log_message ts message st) = console st ++ [line] /\
    contains nl line = false.
Proof.
  intros Hind Hts. unfold log_message. unfold has_indicator in Hind. rewrite Hind.
  destruct (print_first_indicator_one ts message _ Hind)
    as (ind & t & Hin & _ & _ & Hp).
  exists ("[" +:+ ts +:+ "] " +:+ ind +:+ first_line t).
  cbn [console]. rewrite Hp. split; [done|].
  unfold nl. rewrite !contains_char_app. fold nl.
  rewrite Hts, first_line_single.
  assert (contains nl ind = false) as ->; [|done].
  simpl in Hin. destruct Hin as [<-|[<-|[<-|[<-|[<-|[]]]]]]; reflexivity.
Qed.

Lemma log_message_url_line_single_witness :
  exists line,
    console (log_message "2026-01-01 00:00:00"
               (nl +:+ "Returning to starting page: https://app.example/" +:+ nl +:+ "x")
               {| log_file := []; console := [] |}) = [] ++ [line] /\
    contains nl line = false.
Proof.
  apply (log_message_url_line_single "2026-01-01 00:00:00"
           (nl +:+ "Returning to starting page: https://app.example/" +:+ nl +:+ "x")
           {| log_file := []; console := [] |}); vm_compute; reflexivity.
Defined.

(** ** More on modify_auth_cookies *)

Lemma modify_auth_cookies_apply env :
  modify_auth_cookies env
  = (all_cookies ← call 380 Cookies (me_cookies env);
     log (nl +:+ "==== MODIFYING AUTH COOKIES ====");;
     modified_cookies ← collect_modified all_cookies;
     match modified_cookies with
     | _ :: _ =>
         try_ (apply_modifications env all_cookies modified_cookies)
              (fun e => log ("Error modifying auth cookies: " +:+ e))
     | [] => log "No auth cookies found to modify"
     end).
Proof. reflexivity. Qed.

Lemma getitem_cases (d : gmap string value) key :
  (exists v, d !! key = Some v /\ getitem d key = mret v) \/
  (d !! key = None /\ exists e, getitem d key = raise_ e).
Proof. unfold getitem. destruct (d !! key); [left | right]; eauto. Qed.

Lemma collect_modified_logs cs : forallb is_log (trace (collect_modified cs)) = true.
Proof.
  induction cs as [|c rest IH]; [done|].
  rewrite collect_modified_cons. destruct (c !! "expires") as [x|]; [|done].
  destruct (getitem_cases c "name") as [(v & _ & ->) | (_ & e & ->)]; [|done].
  rewrite (pure_bind (mret v)) by done. rewrite result_ret.
  rewrite trace_bind, forallb_app. cbn [trace log fst result snd forallb is_log andb].
  rewrite trace_bind, forallb_app, IH.
  by destruct (result (collect_modified rest)).
Qed.

Lemma collect_modified_ok cs ms :
  result (collect_modified cs) = Ok ms ->
  ms = map zero_expiry (List.filter has_expires cs).
Proof.
  revert ms. induction cs as [|c rest IH]; intros ms.
  - by intros [= <-].
  - rewrite collect_modified_cons. cbn [List.filter]. unfold has_expires at 1.
    destruct (c !! "expires") as [x|]; [|apply IH].
    destruct (getitem_cases c "name") as [(v & _ & ->) | (_ & e & ->)]; [|discriminate].
    rewrite (pure_bind (mret v)) by done. rewrite result_ret, !result_bind.
    cbn [result log snd].
    destruct (result (collect_modified rest)) as [ms'|e]; [|discriminate].
    rewrite result_ret. intros [= <-]. by rewrite (IH ms' eq_refl).
Qed.

Lemma collect_modified_named cs :
  (forall c, In c cs -> has_expires c = true -> is_Some (c !! "name")) ->
  exists ms, result (collect_modified cs) = Ok ms.
Proof.
  induction cs as [|c rest IH]; intros Hname; [by exists []|].
  destruct IH as [ms Hms]; [intros d Hd; apply Hname; by right|].
  rewrite collect_modified_cons.
  pose proof (Hname c (or_introl eq_refl)) as Hc. unfold has_expires in Hc.
  destruct (c !! "expires"); [|by exists ms].
  destruct (Hc eq_refl) as [n Hn]. unfold getitem. rewrite Hn.
  rewrite (pure_bind (mret n)) by done. rewrite result_ret, !result_bind.
  cbn [result log snd]. rewrite Hms. eauto.
Qed.

Lemma cookie_names_trace cs : trace (cookie_names cs) = [].
Proof.
  induction cs as [|c rest IH]; [done|]. cbn [cookie_names].
  destruct (getitem_cases c "name") as [(v & _ & ->) | (_ & e & ->)]; [|done].
  rewrite (pure_bind (mret v)) by done. rewrite result_ret, trace_bind, IH.
  by destruct (result (cookie_names rest)).
Qed.

Lemma keep_originals_trace names cs : trace (keep_originals names cs) = [].
Proof.
  induction cs as [|c rest IH]; [done|]. cbn [keep_originals].
  destruct (getitem_cases c "name") as [(v & _ & ->) | (_ & e & ->)]; [|done].
  rewrite (pure_bind (mret v)) by done. rewrite result_ret, trace_bind, IH.
  by destruct (result (keep_originals names rest)).
Qed.

Lemma cookie_names_ok cs names :
  result (cookie_names cs) = Ok names ->
  forall c, In c cs -> exists n, c !! "name" = Some n /\ In n names.
Proof.
  revert names. induction cs as [|c rest IH]; intros names; [by intros _ ? []|].
  cbn [cookie_names].
  destruct (getitem_cases c "name") as [(v & Hv & ->) | (_ & e & ->)]; [|discriminate].
  rewrite (pure_bind (mret v)) by done. rewrite result_ret, result_bind.
  destruct (result (cookie_names rest)) as [names'|e]; [|discriminate].
  rewrite result_ret. intros [= <-] d [<-|Hd].
  - exists v. split; [done | by left].
  - destruct (IH names' eq_refl d Hd) as (n & Hn & Hin). exists n. split; [done | by right].
Qed.

Lemma keep_originals_ok names cs kept :
  result (keep_originals names cs) = Ok kept ->
  forall c, In c kept ->
    In c cs /\ exists n, c !! "name" = Some n /\ py_in n names = false.
Proof.
  revert kept. induction cs as [|c rest IH]; intros kept.
  - by intros [= <-] ? [].
  - cbn [keep_originals].
    destruct (getitem_cases c "name") as [(v & Hv & ->) | (_ & e & ->)]; [|discriminate].
    rewrite (pure_bind (mret v)) by done. rewrite result_ret, result_bind.
    destruct (result (keep_originals names rest)) as [kept'|e]; [|discriminate].
    rewrite result_ret. intros [= <-] d Hd.
    destruct (py_in v names) eqn:Ev.
    + destruct (IH kept' eq_refl d Hd) as [Hin Hn]. split; [by right | done].
    + destruct Hd as [<-|Hd].
      * split; [by left | eauto].
      * destruct (IH kept' eq_refl d Hd) as [Hin Hn]. split; [by right | done].
Qed.

(** The shape of a run of the [try] body, by the answers of the browser. *)
Lemma apply_modifications_cases env all_cookies ms :
  let tr := trace (apply_modifications env all_cookies ms) in
  (forall o, In (ECall 420 o) tr ->
     me_clear_cookies env = Ok tt /\ me_add_cookies env ms = Ok tt /\
     In (ECall 414 (AddCookies ms)) tr) /\
  (forall c, In c (readded tr) ->
     In c ms \/
     exists names kept,
       result (cookie_names ms) = Ok names /\
       result (keep_originals names all_cookies) = Ok kept /\ In c kept).
Proof.
  unfold apply_modifications, call, log.
  destruct (me_clear_cookies env) as [[]|e0];
    [|split; [intros o [H|[]]; discriminate | intros c []]].
  rewrite bind_ok.
  pose proof (cookie_names_trace ms) as Htn.
  destruct (cookie_names ms) as [tn [names|e1]]; cbn [trace fst] in Htn; subst tn;
    [|split; [intros o [H|[]]; discriminate | intros c []]].
  rewrite bind_ok.
  pose proof (keep_originals_trace names all_cookies) as Htk.
  destruct (keep_originals names all_cookies) as [tk [kept|e2]] eqn:Ek;
    cbn [trace fst] in Htk; subst tk;
    [|split; [intros o [H|[]]; discriminate | intros c []]].
  rewrite bind_ok.
  assert (forall c, In c kept ->
            exists names0 kept0,
              Ok names = Ok names0 /\
              result (keep_originals names0 all_cookies) = Ok kept0 /\ In c kept0)
    as Hkept by (intros c Hc; exists names, kept; by rewrite Ek).
  clear Ek.
  destruct kept as [|k0 ks].
  - destruct (me_add_cookies env ms) as [[]|e3], (me_reload env) as [[]|e4]; cbn;
      (split; [intros o Ho; repeat (destruct Ho as [Ho|Ho]; try discriminate);
               try done; auto 10
              | intros c Hc; rewrite ?app_nil_r in Hc; auto]).
  - destruct (me_add_cookies env (k0 :: ks)) as [[]|e5].
    + destruct (me_add_cookies env ms) as [[]|e3], (me_reload env) as [[]|e4]; cbn;
        (split; [intros o Ho; repeat (destruct Ho as [Ho|Ho]; try discriminate);
                 try done; auto 10
                | intros c Hc; rewrite ?app_nil_r in Hc;
                  destruct Hc as [<-|Hc]; [right; apply Hkept; by left|];
                  first [ apply in_app_or in Hc as [Hc|Hc];
                          [right; apply Hkept; by right | by left]
                        | right; apply Hkept; by right ]]).
    + cbn. split; [intros o Ho; repeat (destruct Ho as [Ho|Ho]; try discriminate); done|].
      intros c Hc. rewrite app_nil_r in Hc. right. by apply Hkept.
Qed.

Lemma modify_auth_cookies_trace env snapshot :
  me_cookies env = Ok snapshot ->
  trace (modify_auth_cookies env)
  = ECall 380 Cookies :: ELog (nl +:+ "==== MODIFYING AUTH COOKIES ====")
    :: trace (collect_modified snapshot)
    ++ match result (collect_modified snapshot) with
       | Ok (m :: ms) =>
           trace (apply_modifications env snapshot (m :: ms))
           ++ match result (apply_modifications env snapshot (m :: ms)) with
              | Ok _ => []
              | Raise e => [ELog ("Error modifying auth cookies: " +:+ e)]
              end
       | Ok [] => [ELog "No auth cookies found to modify"]
       | Raise _ => []
       end.
Proof.
  intros Hsnap. rewrite modify_auth_cookies_apply.
  rewrite trace_bind, trace_call, result_call, Hsnap.
  rewrite trace_bind. cbn [trace result log fst snd app].
  rewrite trace_bind.
  destruct (result (collect_modified snapshot)) as [[|m ms]|e]; try reflexivity.
  rewrite trace_try.
  by destruct (result (apply_modifications env snapshot (m :: ms))).
Qed.

Lemma is_log_not_call tr line o : forallb is_log tr = true -> ~ In (ECall line o) tr.
Proof.
  intros Hall Hin. rewrite forallb_forall in Hall. by specialize (Hall _ Hin).
Qed.

Lemma is_log_readded tr : forallb is_log tr = true -> readded tr = [].
Proof.
  induction tr as [|e tr IH]; [done|]. cbn [forallb].
  intros [He Htr]%andb_true_iff. destruct e; try done. simpl. auto.
Qed.

(** X6: Whatever [clear_cookies], [add_cookies] and [reload] answer, the
    function returns normally when the snapshot could be taken and every
    cookie carrying an expiry has a name. *)
Theorem modify_auth_cookies_never_raises env snapshot :
  me_cookies env = Ok snapshot ->
  (forall c, In c snapshot -> has_expires c = true -> is_Some (c !! "name")) ->
  result (modify_auth_cookies env) = Ok tt.
Proof.
  intros Hsnap Hname. destruct (collect_modified_named snapshot Hname) as [ms Hms].
  rewrite modify_auth_cookies_apply, result_bind, result_call, Hsnap.
  rewrite !result_bind. cbn [result log snd]. rewrite Hms.
  destruct ms as [|m ms]; [done|]. rewrite result_try.
  by destruct (result (apply_modifications env snapshot (m :: ms))) as [[]|e].
Qed.

Lemma modify_auth_cookies_never_raises_witness :
  result (modify_auth_cookies
            {| me_cookies := Ok [sid_with_expiry; sid_session];
               me_clear_cookies := Raise "Target closed";
               me_add_cookies := fun _ => Raise "Target closed";
               me_reload := Raise "Target closed" |}) = Ok tt.
Proof.
  apply (modify_auth_cookies_never_raises _ [sid_with_expiry; sid_session]);
    [reflexivity|].
  intros c [<-|[<-|[]]] _; vm_compute; eauto.
Defined.

(** X7: The page is reloaded to apply the change only after the cookies were
    cleared and the rewritten cookies were accepted by [add_cookies]. *)
Theorem modify_auth_cookies_reload_after_success env snapshot o :
  me_cookies env = Ok snapshot ->
  In (ECall 420 o) (trace (modify_auth_cookies env)) ->
  me_clear_cookies env = Ok tt /\
  exists modified,
    modified = map zero_expiry (List.filter has_expires snapshot) /\
    me_add_cookies env modified = Ok tt /\
    In (ECall 414 (AddCookies modified)) (trace (modify_auth_cookies env)).
Proof.
  intros Hsnap. rewrite (modify_auth_cookies_trace env snapshot Hsnap).
  pose proof (collect_modified_logs snapshot) as Hlogs.
  intros [H|[H|Hin]]; try discriminate.
  apply in_app_or in Hin as [Hin|Hin]; [by apply is_log_not_call in Hin|].
  destruct (result (collect_modified snapshot)) as [[|m ms]|e] eqn:Hres;
    [destruct Hin as [H|[]]; discriminate| |destruct Hin].
  apply collect_modified_ok in Hres.
  apply in_app_or in Hin as [Hin|Hin].
  - destruct (proj1 (apply_modifications_cases env snapshot (m :: ms)) o Hin)
      as (Hclear & Hadd & H414).
    split; [done|]. exists (m :: ms). rewrite <- Hres. split; [done|]. split; [done|].
    right. right. apply in_or_app. right. apply in_or_app. by left.
  - destruct (result (apply_modifications env snapshot (m :: ms)));
      [destruct Hin | destruct Hin as [H|[]]; discriminate].
Qed.

Lemma modify_auth_cookies_reload_after_success_witness :
  me_clear_cookies (sample_modify_env [sid_with_expiry; theme_session]) = Ok tt /\
  exists modified,
    modified = map zero_expiry (List.filter has_expires [sid_with_expiry; theme_session]) /\
    me_add_cookies (sample_modify_env [sid_with_expiry; theme_session]) modified = Ok tt /\
    In (ECall 414 (AddCookies modified))
       (trace (modify_auth_cookies (sample_modify_env [sid_with_expiry; theme_session]))).
Proof.
  apply (modify_auth_cookies_reload_after_success _ [sid_with_expiry; theme_session]
           (Reload (Some 30000) (Some "domcontentloaded"))); [reflexivity|].
  vm_compute. tauto.
Defined.

(** X8: Nothing is invented: every cookie handed to [add_cookies] is either a
    cookie of the snapshot that has no expiry, unchanged, or the copy of a
    snapshot cookie that has one, with the expiry set to 0. *)
Theorem modify_auth_cookies_readded_sound env snapshot c :
  me_cookies env = Ok snapshot ->
  In c (readded (trace (modify_auth_cookies env))) ->
  (In c snapshot /\ has_expires c = false) \/
  (exists d, In d snapshot /\ has_expires d = true /\ c = zero_expiry d).
Proof.
  intros Hsnap. rewrite (modify_auth_cookies_trace env snapshot Hsnap).
  cbn [readded]. rewrite readded_app, (is_log_readded _ (collect_modified_logs snapshot)).
  cbn [app].
  destruct (result (collect_modified snapshot)) as [[|m ms]|e] eqn:Hres; try done.
  apply collect_modified_ok in Hres. rewrite readded_app.
  assert (readded match result (apply_modifications env snapshot (m :: ms)) with
                  | Ok _ => []
                  | Raise e => [ELog ("Error modifying auth cookies: " +:+ e)]
                  end = []) as -> by (by destruct (result _)).
  rewrite app_nil_r. intros Hin.
  assert (forall d, In d (m :: ms) ->
            exists d0, In d0 snapshot /\ has_expires d0 = true /\ d = zero_expiry d0)
    as Hmod.
  { intros d Hd. rewrite Hres in Hd. apply in_map_iff in Hd as (d0 & <- & Hd0).
    apply filter_In in Hd0 as [Hd0 He]. eauto. }
  destruct (proj2 (apply_modifications_cases env snapshot (m :: ms)) c Hin)
    as [Hc | (names & kept & Hnames & Hkept & Hc)]; [right; by apply Hmod|].
  left. destruct (keep_originals_ok _ _ _ Hkept c Hc) as (Hcs & n & Hn & Hnot).
  split; [done|]. destruct (has_expires c) eqn:Hexp; [|done].
  assert (In (zero_expiry c) (m :: ms)) as Hz
    by (rewrite Hres; apply in_map, filter_In; auto).
  destruct (cookie_names_ok _ _ Hnames _ Hz) as (n' & Hn' & Hin').
  unfold zero_expiry in Hn'. rewrite lookup_insert_ne in Hn' by done.
  assert (n' = n) as -> by congruence.
  assert (py_in n names = true) as Hyes
    by (apply existsb_exists; exists n; split; [done | apply py_eq_refl]).
  congruence.
Qed.

Lemma modify_auth_cookies_readded_sound_witness :
  (In (zero_expiry sid_with_expiry) [sid_with_expiry; sid_session] /\
   has_expires (zero_expiry sid_with_expiry) = false) \/
  (exists d, In d [sid_with_expiry; sid_session] /\ has_expires d = true /\
             zero_expiry sid_with_expiry = zero_expiry d).
Proof.
  apply (modify_auth_cookies_readded_sound
           (sample_modify_env [sid_with_expiry; sid_session])); [reflexivity|].
  vm_compute. tauto.
Defined.

Lemma modify_auth_cookies_readded_witness :
  readded (trace (modify_auth_cookies (sample_modify_env [sid_with_expiry; theme_session])))
  = List.filter (fun c => negb (has_expires c)) [sid_with_expiry; theme_session]
    ++ map zero_expiry (List.filter has_expires [sid_with_expiry; theme_session]).
Proof.
  apply modify_auth_cookies_readded; try reflexivity.
  - intros c [<-|[<-|[]]]; vm_compute; eauto.
  - exists sid_with_expiry. split; [by left | reflexivity].
  - intros c d n m [<-|[<-|[]]] [<-|[<-|[]]] Hc Hd Hn Hm;
      vm_compute in Hc, Hd, Hn, Hm; try discriminate.
    injection Hn as <-. injection Hm as <-. reflexivity.
Defined.

(** ** More on the login handler *)

Lemma first_visible_cons el rest :
  first_visible (el :: rest)
  = (visible ← call 240 (IsVisible (el_id el)) (el_is_visible el);
     if (visible : bool) then mret (Some el) else first_visible rest).
Proof. reflexivity. Qed.

Lemma find_visible_element_cons env selector rest :
  find_visible_element env (selector :: rest)
  = (elements ← call 238 (QuerySelectorAll selector) (le_query_selector_all env selector);
     found ← first_visible elements;
     match found with
     | Some el => mret (Some el)
     | None => find_visible_element env rest
     end).
Proof. reflexivity. Qed.

Lemma first_visible_first elements :
  match result (first_visible elements) with
  | Ok (Some el) =>
      exists before after,
        elements = before ++ el :: after /\ el_is_visible el = Ok true /\
        Forall (fun x => el_is_visible x = Ok false) before
  | Ok None => Forall (fun x => el_is_visible x = Ok false) elements
  | Raise e =>
      exists before x after,
        elements = before ++ x :: after /\ el_is_visible x = Raise e /\
        Forall (fun x => el_is_visible x = Ok false) before
  end.
Proof.
  induction elements as [|el rest IH]; [by constructor|].
  rewrite first_visible_cons, result_bind, result_call.
  destruct (el_is_visible el) as [[|]|e] eqn:Ev.
  - exists [], rest. by repeat split.
  - destruct (result (first_visible rest)) as [[found|]|e].
    + destruct IH as (before & after & -> & Hv & Hb).
      exists (el :: before), after. repeat split; [done | by constructor].
    + by constructor.
    + destruct IH as (before & x & after & -> & Hv & Hb).
      exists (el :: before), x, after. repeat split; [done | by constructor].
  - exists [], el, rest. by repeat split.
Qed.

(** X9: [find_visible_element] yields the first visible element of the first
    selector that has one: the selectors before it matched only invisible
    elements, and so did the elements before it; it yields nothing only if
    every selector matched invisible elements only. *)
Theorem find_visible_element_first_match env selectors :
  match result (find_visible_element env selectors) with
  | Ok (Some el) =>
      exists earlier selector later before after,
        selectors = earlier ++ selector :: later /\
        le_query_selector_all env selector = Ok (before ++ el :: after) /\
        el_is_visible el = Ok true /\
        Forall (fun x => el_is_visible x = Ok false) before /\
        Forall (fun s => exists els, le_query_selector_all env s = Ok els /\
                           Forall (fun x => el_is_visible x = Ok false) els) earlier
  | Ok None =>
      Forall (fun s => exists els, le_query_selector_all env s = Ok els /\
                         Forall (fun x => el_is_visible x = Ok false) els) selectors
  | Raise e => True
  end.
Proof.
  induction selectors as [|sel rest IH]; [by constructor|].
  rewrite find_visible_element_cons, result_bind, result_call.
  destruct (le_query_selector_all env sel) as [els|e] eqn:Eq; [|done].
  rewrite result_bind. pose proof (first_visible_first els) as Hf.
  destruct (result (first_visible els)) as [[el|]|e]; [| |done].
  - destruct Hf as (before & after & -> & Hv & Hb).
    exists [], sel, rest, before, after. by repeat split.
  - destruct (result (find_visible_element env rest)) as [[el|]|e]; [| |done].
    + destruct IH as (earlier & selector & later & before & after & -> & Hq & Hv & Hb & He).
      exists (sel :: earlier), selector, later, before, after.
      repeat split; try done. constructor; [eauto | done].
    + constructor; [eauto | done].
Qed.

Lemma find_visible_element_In env selectors el :
  result (find_visible_element env selectors) = Ok (Some el) ->
  exists selector els, le_query_selector_all env selector = Ok els /\ In el els.
Proof.
  induction selectors as [|sel rest IH]; [discriminate|].
  rewrite find_visible_element_cons, result_bind, result_call.
  destruct (le_query_selector_all env sel) as [els|e] eqn:Eq; [|discriminate].
  rewrite result_bind. pose proof (first_visible_first els) as Hf.
  destruct (result (first_visible els)) as [[found|]|e]; [| |discriminate].
  - intros [= ->]. destruct Hf as (before & after & -> & _).
    exists sel, (before ++ el :: after). split; [done|]. apply in_elt.
  - apply IH.
Qed.

Lemma outputs_app tr1 tr2 : outputs (tr1 ++ tr2) = outputs tr1 ++ outputs tr2.
Proof. apply omap_app. Qed.

Lemma same_output_refl {A} (m : M A) : same_output m m.
Proof. by split. Qed.

Lemma same_output_bind {A B} (m m' : M A) (f f' : A -> M B) :
  same_output m m' ->
  (forall a, result m = Ok a -> same_output (f a) (f' a)) ->
  same_output (m ≫= f) (m' ≫= f').
Proof.
  intros [Hr Ho] Hf. unfold same_output.
  rewrite !result_bind, !trace_bind, !outputs_app, <- Hr, Ho.
  destruct (result m) as [a|e]; [|done].
  destruct (Hf a eq_refl) as [Hr' Ho']. by rewrite Hr', Ho'.
Qed.

Lemma same_output_try {A} (m m' : M A) (h h' : string -> M A) :
  same_output m m' ->
  (forall e, same_output (h e) (h' e)) ->
  same_output (try_ m h) (try_ m' h').
Proof.
  intros [Hr Ho] Hh. unfold same_output.
  rewrite !result_try, !trace_try, !outputs_app, <- Hr, Ho.
  destruct (result m) as [a|e]; [done|].
  destruct (Hh e) as [Hr' Ho']. by rewrite Hr', Ho'.
Qed.

Lemma same_output_fill line (el : element) text text' :
  el_fill el text = el_fill el text' ->
  same_output (call line (Fill (el_id el) text) (el_fill el text))
              (call line (Fill (el_id el) text') (el_fill el text')).
Proof. intros Heq. split; [by rewrite !result_call | by rewrite !trace_call]. Qed.

Ltac same_step :=
  apply same_output_bind; [apply same_output_refl | intros ? ?].

Lemma fill_login_form_same_output creds creds' env :
  (forall selector els el text text',
      le_query_selector_all env selector = Ok els -> In el els ->
      el_fill el text = el_fill el text') ->
  same_output (fill_login_form creds env) (fill_login_form creds' env).
Proof.
  intros Hfill. unfold fill_login_form.
  do 3 same_step.
  apply same_output_bind; [apply same_output_refl | intros [uf|] Huf];
    [|apply same_output_refl].
  destruct (find_visible_element_In _ _ _ Huf) as (su & elsu & Hqu & Hinu).
  do 3 same_step.
  apply same_output_bind; [apply same_output_fill; eauto | intros ? ?].
  do 2 same_step.
  apply same_output_bind; [apply same_output_refl | intros [pf|] Hpf];
    [|apply same_output_refl].
  destruct (find_visible_element_In _ _ _ Hpf) as (sp & elsp & Hqp & Hinp).
  do 3 same_step.
  apply same_output_bind; [apply same_output_fill; eauto | intros ? ?].
  do 2 same_step. apply same_output_refl.
Qed.

(** X10: The credentials reach the browser through [fill] only: as long as the
    form fields answer a fill the same way whatever the text, what the
    login handler logs and prints does not depend on the username and the
    password (beyond whether they are set). *)
Theorem handle_cognito_login_hides_credentials creds creds' env :
  nonempty (COGNITO_USERNAME creds) = nonempty (COGNITO_USERNAME creds') ->
  nonempty (COGNITO_PASSWORD creds) = nonempty (COGNITO_PASSWORD creds') ->
  (forall selector els el text text',
      le_query_selector_all env selector = Ok els -> In el els ->
      el_fill el text = el_fill el text') ->
  outputs (trace (handle_cognito_login creds env))
  = outputs (trace (handle_cognito_login creds' env)).
Proof.
  intros Hu Hp Hfill.
  enough (same_output (handle_cognito_login creds env) (handle_cognito_login creds' env))
    as [_ H] by exact H.
  unfold handle_cognito_login. rewrite <- Hu, <- Hp.
  apply same_output_try; [|intros; apply same_output_refl].
  do 2 same_step.
  destruct (nonempty (COGNITO_USERNAME creds) && nonempty (COGNITO_PASSWORD creds));
    [|apply same_output_refl].
  same_step.
  apply same_output_bind; [apply same_output_refl | intros [|] _];
    [apply same_output_refl|].
  apply same_output_try; [|intros; apply same_output_refl].
  by apply fill_login_form_same_output.
Qed.

Lemma handle_cognito_login_hides_credentials_witness :
  outputs (trace (handle_cognito_login sample_creds (sample_login_env (Ok tt))))
  = outputs (trace (handle_cognito_login
                      {| COGNITO_USERNAME := "someone"; COGNITO_PASSWORD := "else" |}
                      (sample_login_env (Ok tt)))).
Proof.
  apply handle_cognito_login_hides_credentials; try reflexivity.
  intros selector els el text text' [= <-] [<-|[]]. reflexivity.
Defined.

Lemma sleep_total_app tr1 tr2 :
  sleep_total (tr1 ++ tr2) = sleep_total tr1 + sleep_total tr2.
Proof.
  induction tr1 as [|e tr1 IH]; [done|].
  destruct e; cbn [app sleep_total]; lia.
Qed.

Lemma sleeps_within_bind_ok {A B} n (m : M A) (f : A -> M B) a :
  result m = Ok a ->
  sleeps_within (n - sleep_total (trace m)) (f a) ->
  sleeps_within n (m ≫= f).
Proof.
  unfold sleeps_within. intros Hr.
  rewrite result_bind, trace_bind, Hr, sleep_total_app. lia.
Qed.

Lemma sleeps_within_bind_raise {A B} n (m : M A) (f : A -> M B) e :
  result m = Raise e ->
  sleep_total (trace m) <= n ->
  sleeps_within n (m ≫= f).
Proof.
  unfold sleeps_within. intros Hr.
  rewrite result_bind, trace_bind, Hr, app_nil_r. lia.
Qed.

Lemma first_visible_no_sleep elements : sleep_total (trace (first_visible elements)) = 0.
Proof.
  induction elements as [|el rest IH]; [done|].
  rewrite first_visible_cons, trace_bind, trace_call, result_call, sleep_total_app.
  destruct (el_is_visible el) as [[|]|e]; cbn [sleep_total]; [done | lia | done].
Qed.

Lemma find_visible_element_no_sleep env selectors :
  sleep_total (trace (find_visible_element env selectors)) = 0.
Proof.
  induction selectors as [|sel rest IH]; [done|].
  rewrite find_visible_element_cons, trace_bind, trace_call, result_call, sleep_total_app.
  destruct (le_query_selector_all env sel) as [els|e]; [|done].
  rewrite trace_bind, sleep_total_app, first_visible_no_sleep.
  destruct (result (first_visible els)) as [[el|]|e]; cbn [sleep_total trace mret M_ret fst];
    lia.
Qed.

Ltac sleep_ok := eapply sleeps_within_bind_ok; [reflexivity|].
Ltac sleep_arith :=
  unfold sleeps_within; cbn; lia.
Ltac sleep_call r :=
  let e := fresh "e" in
  destruct r as [[]|e];
  [sleep_ok | eapply sleeps_within_bind_raise; [reflexivity | sleep_arith]].

Lemma submit_login_sleeps env : sleeps_within 0 (submit_login env).
Proof.
  unfold submit_login.
  pose proof (find_visible_element_no_sleep env submit_selectors) as Hq.
  destruct (find_visible_element env submit_selectors) as [tr [[sb|]|e]];
    cbn [trace fst] in Hq.
  - sleep_ok. do 2 sleep_ok. sleep_call (el_click sb).
    unfold sleeps_within. rewrite result_try, trace_try, !result_bind.
    cbn [result log snd]. rewrite !result_try.
    destruct (le_wait_load_after env) as [[]|?];
      destruct (le_wait_function env) as [[]|?]; cbn;
      try destruct (negb _); cbn; lia.
  - sleep_ok. sleep_arith.
  - eapply sleeps_within_bind_raise; [reflexivity | sleep_arith].
Qed.

Lemma fill_login_form_sleeps creds env : sleeps_within 3 (fill_login_form creds env).
Proof.
  unfold fill_login_form. do 3 sleep_ok.
  pose proof (find_visible_element_no_sleep env username_selectors) as Hqu.
  destruct (find_visible_element env username_selectors) as [tru [[uf|]|e]];
    cbn [trace fst] in Hqu.
  - sleep_ok. sleep_ok.
    sleep_call (el_click uf). sleep_call (el_fill uf "").
    sleep_call (el_fill uf (COGNITO_USERNAME creds)). do 2 sleep_ok.
    pose proof (find_visible_element_no_sleep env password_selectors) as Hqp.
    destruct (find_visible_element env password_selectors) as [trp [[pf|]|e]];
      cbn [trace fst] in Hqp.
    + sleep_ok. sleep_ok.
      sleep_call (el_click pf). sleep_call (el_fill pf "").
      sleep_call (el_fill pf (COGNITO_PASSWORD creds)). do 2 sleep_ok.
      pose proof (submit_login_sleeps env) as Hs. unfold sleeps_within in *.
      cbn. cbn in Hs. lia.
    + sleep_ok. sleep_arith.
    + eapply sleeps_within_bind_raise; [reflexivity | sleep_arith].
  - sleep_ok. sleep_arith.
  - eapply sleeps_within_bind_raise; [reflexivity | sleep_arith].
Qed.

(** X11: However the login page behaves, the login handler sleeps at most 63
    seconds in all: up to three one-second pauses and one 60-second wait. *)
Theorem handle_cognito_login_sleep_bound creds env :
  sleep_total (trace (handle_cognito_login creds env)) <= 63.
Proof.
  unfold handle_cognito_login.
  destruct (le_wait_load env) as [[]|e0]; [|cbn; lia].
  destruct (nonempty (COGNITO_USERNAME creds) && nonempty (COGNITO_PASSWORD creds));
    [|cbn; lia].
  destruct (le_is_closed env); [cbn; lia|].
  set (inner := try_ (fill_login_form creds env) _).
  assert (result inner = Ok tt /\ sleep_total (trace inner) <= 63) as [Hres Hle].
  { pose proof (fill_login_form_sleeps creds env) as Hfill. unfold sleeps_within in Hfill.
    unfold inner. rewrite result_try, trace_try, sleep_total_app.
    set (slept := sleep_total (trace (fill_login_form creds env))) in *.
    destruct (result (fill_login_form creds env)) as [[]|e]; cbn; split; (done || lia). }
  clearbody inner. destruct inner as [tr r]. cbn [result trace fst snd] in Hres, Hle.
  subst r. unfold call, log. rewrite !bind_ok.
  cbn [try_ result trace fst snd]. rewrite !sleep_total_app. cbn. lia.
Qed.

(** ** More on the choice of a link *)

Lemma contains_uninstall_install s :
  contains "uninstall" s = true -> contains "install" s = true.
Proof.
  rewrite !contains_spec. intros (a & b & ->).
  exists (a +:+ "un"), b.
  induction a as [|c a IH]; str_simpl; [reflexivity | by rewrite IH].
Qed.

(** X12: The blocklist entry "uninstall" never decides anything: an href that
    contains it contains "install" as well. *)
Theorem href_allowed_uninstall_redundant h :
  href_allowed (Some h)
  = nonempty h
    && negb (existsb (fun bad_word => contains bad_word (lower h))
                     ["install"; "forgot"; "google"]).
Proof.
  unfold href_allowed, bad_link_words. cbn [existsb]. f_equal. f_equal.
  destruct (contains "uninstall" (lower h)) eqn:Eu; [|by rewrite orb_false_l].
  by rewrite (contains_uninstall_install _ Eu).
Qed.

Lemma py_index_In {A} (l : list A) i x : result (py_index l i) = Ok x -> In x l.
Proof.
  unfold py_index.
  destruct ((0 <=? _) && (_ <? _)); [|discriminate].
  destruct (l !! Z.to_nat _) as [y|] eqn:Hy; [|discriminate].
  intros [= <-]. apply list_elem_of_In. by eapply list_elem_of_lookup_2.
Qed.

Lemma chosen_link_allowed t link href :
  chosen_link t = Some (link, href) ->
  exists links,
    t_links t = Ok links /\ In link links /\ el_href link = Ok (Some href) /\
    href_allowed (Some href) = true /\
    startswith href "#" = false /\ startswith href "javascript:" = false.
Proof.
  unfold chosen_link.
  destruct (t_links t) as [[|l ls]|e]; try discriminate.
  destruct (result (filtered_links (l :: ls))) as [[|f fs]|e] eqn:Ef; try discriminate.
  rewrite result_bind.
  destruct (result (randint _ _ _)) as [i|e]; [|discriminate].
  destruct (result (py_index (f :: fs) i)) as [[link' href']|e] eqn:Ei; [|discriminate].
  destruct (nonempty href') eqn:E1; [|discriminate].
  destruct (startswith href' "#") eqn:E2; [discriminate|].
  destruct (startswith href' "javascript:") eqn:E3; [discriminate|].
  intros [= -> ->]. exists (l :: ls). split; [done|].
  apply py_index_In in Ei.
  apply (filtered_links_In _ _ Ef) in Ei as (Hin & Hh & Ha). auto.
Qed.

Lemma before_click_no_click pre id :
  forallb before_click pre = true -> ~ In (ECall 565 (Click id)) pre.
Proof.
  intros Hall Hin. rewrite forallb_forall in Hall. by specialize (Hall _ Hin).
Qed.

Lemma click_or_navigate_click cfg t link href id :
  In (ECall 565 (Click id)) (trace (click_or_navigate cfg t link href)) ->
  id = el_id link.
Proof.
  unfold click_or_navigate, log, call.
  destruct (el_click link) as [[]|e1]; [destruct (t_wait_networkidle t) as [[]|e2]|];
    destruct (t_goto_link t (full_url cfg href)) as [[]|e3];
    cbn; intros H; repeat (destruct H as [H|H]; try discriminate);
    try done; by injection H.
Qed.

(** X13: The click branch never clicks a link it should not: whatever is clicked
    is an anchor of the page whose href is non-empty, contains no
    blocklisted word in any letter case, and is neither a fragment nor a
    javascript: link. *)
Theorem clicked_link_is_allowed cfg t id :
  In (ECall 565 (Click id)) (trace (click_random_link cfg t)) ->
  exists links link href,
    t_links t = Ok links /\ In link links /\ el_id link = id /\
    el_href link = Ok (Some href) /\ href <> "" /\
    (forall w, In w bad_link_words -> contains w (lower href) = false) /\
    startswith href "#" = false /\ startswith href "javascript:" = false.
Proof.
  intros Hin.
  destruct (chosen_link t) as [[link href]|] eqn:Ec.
  - destruct (click_random_link_chosen cfg t link href Ec) as (pre & Hpre & Heq).
    rewrite Heq in Hin. cbn [trace fst] in Hin.
    apply in_app_or in Hin as [Hin|Hin]; [by apply before_click_no_click in Hin|].
    apply click_or_navigate_click in Hin as ->.
    destruct (chosen_link_allowed t link href Ec) as (links & Hl & Hmem & Hh & Ha & H1 & H2).
    apply href_allowed_spec in Ha as [Hne Hbad].
    exists links, link, href. auto 10.
  - exfalso. eapply before_click_no_click; [|exact Hin].
    by apply click_random_link_not_chosen.
Qed.

Lemma clicked_link_is_allowed_witness :
  exists links link href,
    t_links (sample_tick 10 (Ok [sample_element 4 (Some "/install") (Ok tt);
                                 sample_element 5 (Some "/docs") (Ok tt)])) = Ok links /\
    In link links /\ el_id link = 5%nat /\
    el_href link = Ok (Some href) /\ href <> "" /\
    (forall w, In w bad_link_words -> contains w (lower href) = false) /\
    startswith href "#" = false /\ startswith href "javascript:" = false.
Proof.
  apply (clicked_link_is_allowed sample_config
           (sample_tick 10 (Ok [sample_element 4 (Some "/install") (Ok tt);
                                sample_element 5 (Some "/docs") (Ok tt)])) 5%nat).
  vm_compute. tauto.
Defined.

(** X14: The filter keeps the anchors in page order, each with the href it read:
    the links kept are a sub-sequence of the anchors of the page. *)
Theorem filtered_links_in_page_order links fl :
  result (filtered_links links) = Ok fl ->
  sublist (map fst fl) links /\
  Forall (fun lh => el_href lh.1 = Ok (Some lh.2)) fl.
Proof.
  revert fl. induction links as [|l links IH]; intros fl.
  - intros [= <-]. split; constructor.
  - rewrite filtered_links_cons, result_bind, result_call.
    destruct (el_href l) as [href|e] eqn:Eh; [|discriminate].
    rewrite result_bind.
    destruct (result (filtered_links links)) as [fl'|e]; [|discriminate].
    destruct (IH fl' eq_refl) as [Hsub Hall].
    destruct href as [h|]; rewrite result_ret.
    + destruct (href_allowed (Some h)); intros Heq; injection Heq as <-.
      * split; [by apply sublist_skip | by constructor].
      * split; [by apply sublist_cons | done].
    + intros Heq; injection Heq as <-. split; [by apply sublist_cons | done].
Qed.

Lemma filtered_links_in_page_order_witness :
  sublist (map fst [(sample_element 5 (Some "/docs") (Ok tt), "/docs")])
          [sample_element 4 (Some "/install") (Ok tt);
           sample_element 5 (Some "/docs") (Ok tt)] /\
  Forall (fun lh => el_href lh.1 = Ok (Some lh.2))
         [(sample_element 5 (Some "/docs") (Ok tt), "/docs")].
Proof.
  apply (filtered_links_in_page_order
           [sample_element 4 (Some "/install") (Ok tt);
            sample_element 5 (Some "/docs") (Ok tt)]).
  reflexivity.
Defined.

(** ** More on the scheduler and the loop *)

Lemma scheduler_branch_clock cfg clk t current_time clk' :
  result (scheduler_branch cfg clk t current_time) = Ok clk' ->
  clk' = stamp (due cfg clk current_time) clk current_time.
Proof.
  unfold scheduler_branch, due.
  destruct (cookie_mod_interval cfg <=? current_time - last_cookie_mod_time clk).
  { rewrite !result_bind. cbn [result log snd]. rewrite result_try.
    destruct (result (modify_auth_cookies (t_modify t))); cbn; by intros [= <-]. }
  destruct (return_interval cfg <=? current_time - last_return_time clk).
  { unfold call, log. destruct (t_goto_start t) as [[]|e']; cbn; by intros [= <-]. }
  destruct (refresh_interval cfg <=? current_time - last_refresh_time clk).
  { unfold call, log. destruct (t_refresh t) as [[]|e']; cbn; by intros [= <-]. }
  rewrite result_bind.
  destruct (result (click_random_link cfg t)); [|discriminate].
  cbn. by intros [= <-].
Qed.

Lemma tick_body_clock json_dumps cfg creds initial_cookies clk t clk' :
  result (tick_body json_dumps cfg creds initial_cookies clk t) = Ok clk' ->
  clk' = stamp (due cfg clk (t_current_time t)) clk (t_current_time t).
Proof.
  unfold tick_body.
  destruct (check_and_handle_cognito_login_result creds (t_url_at_check t) (t_login t))
    as [handled Hh].
  rewrite result_bind, Hh, result_bind, result_call.
  destruct (t_cookies t) as [cs|e']; [|discriminate].
  rewrite !result_bind. cbn [result log snd].
  destruct (result (scheduler_branch cfg clk t (t_current_time t))) as [clk''|e'] eqn:Es;
    [|discriminate].
  rewrite result_bind, capture_and_report_result, result_ret.
  intros [= <-]. by apply scheduler_branch_clock in Es.
Qed.

(** X15: A timed action that fails still counts as done: when cookie
    modification, the return to the start page or the refresh is due and the
    cookie snapshot of the iteration could be taken, the iteration completes
    and advances that action's timestamp to the current time, whatever the
    browser answers to the action itself. *)
Theorem failed_action_is_stamped json_dumps cfg creds initial_cookies clk t cs :
  t_cookies t = Ok cs ->
  due cfg clk (t_current_time t) <> ClickLink ->
  result (tick_body json_dumps cfg creds initial_cookies clk t)
  = Ok (stamp (due cfg clk (t_current_time t)) clk (t_current_time t)).
Proof.
  intros Hcs Hdue.
  destruct (result (tick_body json_dumps cfg creds initial_cookies clk t))
    as [clk'|e] eqn:Et.
  - by rewrite (tick_body_clock _ _ _ _ _ _ _ Et).
  - apply tick_body_raises in Et as [Hr | [Hd _]]; congruence.
Qed.

Lemma failed_action_is_stamped_witness :
  result (tick_body sample_json_dumps sample_config sample_creds [] sample_clock
            sample_tick_modify_fails)
  = Ok {| last_refresh_time := 0; last_return_time := 0; last_cookie_mod_time := 130 |}.
Proof.
  apply (failed_action_is_stamped sample_json_dumps sample_config sample_creds []
           sample_clock sample_tick_modify_fails [theme_session]);
    [reflexivity | discriminate].
Defined.

(** X16: After a timed action ran at some time, the same action is not due again
    before its interval has passed since then. *)
Theorem timed_actions_are_spaced json_dumps cfg creds initial_cookies clk t clk' a later :
  result (tick_body json_dumps cfg creds initial_cookies clk t) = Ok clk' ->
  due cfg clk (t_current_time t) = a ->
  a <> ClickLink ->
  due cfg clk' later = a ->
  interval_of cfg a <= later - t_current_time t.
Proof.
  intros Ht Hdue Ha Hlater. apply tick_body_clock in Ht. rewrite Hdue in Ht. subst clk'.
  unfold due in Hlater.
  destruct a; cbn [stamp interval_of last_cookie_mod_time last_return_time
                   last_refresh_time] in *; try done;
    repeat match goal with
           | H : context [if ?c <=? ?d then _ else _] |- _ =>
               destruct (Z.leb_spec c d); try discriminate
           end; lia.
Qed.

Lemma timed_actions_are_spaced_witness :
  interval_of sample_config ModifyCookies <= 250 - t_current_time (sample_tick 130 (Ok [])).
Proof.
  apply (timed_actions_are_spaced sample_json_dumps sample_config sample_creds []
           sample_clock (sample_tick 130 (Ok []))
           {| last_refresh_time := 0; last_return_time := 0; last_cookie_mod_time := 130 |});
    [reflexivity | reflexivity | discriminate | reflexivity].
Defined.

Lemma tick_body_actions_due json_dumps cfg creds initial_cookies clk t a :
  In a (actions (trace (tick_body json_dumps cfg creds initial_cookies clk t))) ->
  a = due cfg clk (t_current_time t).
Proof.
  unfold tick_body.
  destruct (check_and_handle_cognito_login_result creds (t_url_at_check t) (t_login t))
    as [handled Hh].
  rewrite trace_bind, actions_app, check_and_handle_cognito_login_silent, Hh.
  rewrite trace_bind, trace_call, result_call, actions_app.
  change (actions [ECall 509 Cookies]) with (@nil action).
  destruct (t_cookies t) as [cs|e]; [|intros []].
  rewrite !trace_bind. cbn [trace result log fst snd].
  rewrite !actions_app, scheduler_branch_actions.
  cbn [actions omap action_of app].
  assert (actions match result (scheduler_branch cfg clk t (t_current_time t)) with
                  | Ok clk' =>
                      trace (capture_and_report json_dumps initial_cookies cs t;;
                             mret clk')
                  | Raise _ => []
                  end = []) as ->.
  { destruct (result (scheduler_branch _ _ _ _)); [|done].
    rewrite trace_bind, actions_app, capture_and_report_silent.
    by destruct (result (capture_and_report _ _ _ _)). }
  rewrite app_nil_r.
  destruct (due cfg clk (t_current_time t)); try (by intros [<-|[]]).
  destruct (chosen_link t); [by intros [<-|[]] | intros []].
Qed.

(** X17: With a cookie-modification interval of zero (or less) and a clock that
    does not run backwards, the first branch wins every time: the loop only
    ever modifies cookies and never returns, refreshes or clicks. *)
Theorem zero_cookie_interval_starves json_dumps cfg creds initial_cookies
    start_time clk ticks since :
  cookie_mod_interval cfg <= 0 ->
  last_cookie_mod_time clk <= since ->
  nondecreasing since ticks ->
  Forall (fun a => a = ModifyCookies)
         (actions (trace (browse_loop json_dumps cfg creds initial_cookies
                            start_time clk ticks))).
Proof.
  intros Hzero. revert clk since.
  induction ticks as [|t rest IH]; intros clk since Hlast Hmono; [constructor|].
  destruct Hmono as (Hs & Hc & Hrest).
  cbn [browse_loop].
  destruct (t_time_check t - start_time <? browse_duration cfg); [|constructor].
  rewrite trace_bind, actions_app. apply Forall_app. split.
  - apply Forall_forall. intros a Ha%list_elem_of_In.
    apply tick_body_actions_due in Ha as ->.
    unfold due. destruct (Z.leb_spec (cookie_mod_interval cfg)
                            (t_current_time t - last_cookie_mod_time clk)); [done | lia].
  - destruct (result (tick_body json_dumps cfg creds initial_cookies clk t))
      as [clk'|e] eqn:Et; [|constructor].
    apply (IH clk' (t_current_time t)); [|done].
    apply tick_body_clock in Et as ->.
    destruct (due cfg clk (t_current_time t)); cbn; lia.
Qed.

Lemma zero_cookie_interval_starves_witness :
  Forall (fun a => a = ModifyCookies)
         (actions (trace (browse_loop sample_json_dumps
                            {| url := "https://app.example/"; browse_duration := 600;
                               refresh_interval := 60; return_interval := 300;
                               cookie_mod_interval := 0 |}
                            sample_creds [] 0 sample_clock
                            [sample_tick 10 (Ok []); sample_tick 20 (Ok [])]))).
Proof.
  apply (zero_cookie_interval_starves _ _ _ _ _ _ _ 0); [cbn; lia | cbn; lia |].
  cbn. lia.
Defined.

(** With a browsing duration of zero or less the loop does not run a single
    iteration. *)
Lemma browse_loop_zero_duration json_dumps cfg creds initial_cookies
    start_time clk t rest :
  browse_duration cfg <= 0 ->
  start_time <= t_time_check t ->
  browse_loop json_dumps cfg creds initial_cookies start_time clk (t :: rest)
  = ([], Ok DurationElapsed).
Proof.
  intros Hd Hs. cbn [browse_loop].
  destruct (Z.ltb_spec (t_time_check t - start_time) (browse_duration cfg)); [lia | done].
Qed.

Lemma capture_and_report_ends json_dumps initial_cookies current_cookies t :
  exists before,
    trace (capture_and_report json_dumps initial_cookies current_cookies t)
    = before ++ [ECall 627 (Once "request" "log_request_headers"); ESleep 10].
Proof.
  unfold capture_and_report, call, log, sleep.
  destruct (t_wait_before_reload t) as [[]|?], (t_reload t) as [[]|?],
    (t_wait_after_reload t) as [[]|?], (t_request_headers t) as [h|];
    try destruct (bool_decide (h = ∅));
    destruct (List.filter _ current_cookies); cbn;
    match goal with
    | |- exists before, ?l = _ => 
        exists (take (length l - 2) l); reflexivity
    end.
Qed.

(** X18: Every iteration that completes ends by re-arming the request listener
    and sleeping 10 seconds, whichever branch ran and whatever failed. *)
Theorem tick_body_ends_with_sleep json_dumps cfg creds initial_cookies clk t clk' :
  result (tick_body json_dumps cfg creds initial_cookies clk t) = Ok clk' ->
  exists before,
    trace (tick_body json_dumps cfg creds initial_cookies clk t)
    = before ++ [ECall 627 (Once "request" "log_request_headers"); ESleep 10].
Proof.
  unfold tick_body.
  destruct (check_and_handle_cognito_login_result creds (t_url_at_check t) (t_login t))
    as [handled Hh].
  rewrite result_bind, Hh, result_bind, result_call.
  rewrite trace_bind, Hh, trace_bind, trace_call, result_call.
  destruct (t_cookies t) as [cs|e']; [|discriminate].
  rewrite !result_bind, !trace_bind. cbn [result trace log fst snd].
  destruct (result (scheduler_branch cfg clk t (t_current_time t))) as [clk''|e'];
    [|discriminate].
  intros _. rewrite trace_bind.
  destruct (capture_and_report_ends json_dumps initial_cookies cs t) as [before ->].
  rewrite capture_and_report_result. cbn [trace mret M_ret fst].
  eexists. rewrite app_nil_r, !app_assoc. reflexivity.
Qed.

Lemma tick_body_ends_with_sleep_witness :
  exists before,
    trace (tick_body sample_json_dumps sample_config sample_creds [] sample_clock
             (sample_tick 10 (Ok [])))
    = before ++ [ECall 627 (Once "request" "log_request_headers"); ESleep 10].
Proof.
  apply (tick_body_ends_with_sleep _ _ _ _ _ _ sample_clock). reflexivity.
Defined.

Lemma dict_eq_refl (c : cookie) : dict_eq c c = true.
Proof.
  unfold dict_eq. rewrite bool_decide_eq_true_2 by done. cbn [andb].
  apply forallb_forall. intros [k v] Hin%list_elem_of_In%elem_of_map_to_list.
  cbn [fst snd]. rewrite Hin. apply py_eq_refl.
Qed.

(** X19: A cookie that was there at the start is never reported as new: when
    every current cookie is among the initial ones, the iteration logs no
    "New cookies" line, whatever else it logs. *)
Theorem known_cookies_not_reported json_dumps initial_cookies current_cookies t message :
  (forall c, In c current_cookies -> In c initial_cookies) ->
  In (ELog message)
     (trace (capture_and_report json_dumps initial_cookies current_cookies t)) ->
  startswith message "New cookie" = false.
Proof.
  intros Hknown.
  assert (List.filter (fun c => negb (existsb (dict_eq c) initial_cookies))
                      current_cookies = []) as Hnone.
  { induction current_cookies as [|c rest IH]; [done|]. cbn [List.filter].
    assert (existsb (dict_eq c) initial_cookies = true) as ->.
    { apply existsb_exists. exists c. split; [apply Hknown; by left | apply dict_eq_refl]. }
    apply IH. intros d Hd. apply Hknown. by right. }
  unfold capture_and_report. rewrite Hnone. unfold call, log, sleep.
  destruct (t_wait_before_reload t) as [[]|?], (t_reload t) as [[]|?],
    (t_wait_after_reload t) as [[]|?], (t_request_headers t) as [h|];
    try destruct (bool_decide (h = ∅)); cbn;
    intros H; repeat (destruct H as [H|H]; try discriminate); try done;
    injection H as <-; reflexivity.
Qed.

Lemma known_cookies_not_reported_witness :
  startswith "Error during page reload: Timeout" "New cookie" = false.
Proof.
  apply (known_cookies_not_reported sample_json_dumps [theme_session; sid_session]
           [sid_session]
           {| t_time_check := 10; t_current_time := 10;
              t_url_at_check := "https://app.example/";
              t_login := sample_login_env (Ok tt);
              t_cookies := Ok [sid_session];
              t_page_url := "https://app.example/";
              t_modify := sample_modify_env [];
              t_goto_start := Ok tt; t_refresh := Ok tt;
              t_links := Ok []; t_entropy := 0;
              t_wait_networkidle := Ok tt; t_goto_link := fun _ => Ok tt;
              t_wait_before_reload := Ok tt; t_reload := Raise "Timeout";
              t_wait_after_reload := Ok tt; t_request_headers := None |}).
  - intros c [<-|[]]. right. by left.
  - vm_compute. tauto.
Defined.

Lemma browse_loop_no_exception_witness :
  exists ending,
    result (browse_loop sample_json_dumps sample_config sample_creds [] 0 sample_clock
              [sample_tick 10 (Ok [sample_element 1 (Some "/docs") (Raise "detached")]);
               sample_tick_modify_fails])
    = Ok ending.
Proof.
  apply (browse_loop_no_exception sample_json_dumps sample_config sample_creds [] 0
           [sample_tick 10 (Ok [sample_element 1 (Some "/docs") (Raise "detached")]);
            sample_tick_modify_fails]).
  repeat constructor; eexists; (split; [reflexivity | repeat constructor]).
Defined.

(** ** The listeners *)

(** X21: The new-tab listener never raises.  It leaves the main page alone, and
    for any other tab it attempts to close it on every path: after the
    redirect, or in the handler of whatever went wrong. *)
Theorem handle_new_page_closes tab :
  sresult (handle_new_page tab) = Ok tt /\
  (nt_is_main tab = true ->
     strace (handle_new_page tab)
     = [Ev (ELog "Ignoring main page in page event handler")]) /\
  (nt_is_main tab = false ->
     In (SCall 146 TabClose) (strace (handle_new_page tab)) \/
     In (SCall 151 TabClose) (strace (handle_new_page tab))).
Proof.
  unfold handle_new_page.
  destruct (nt_is_main tab); [by repeat split|].
  split; [|split; [discriminate | intros _]].
  - destruct (nt_wait_load tab) as [[]|?], (String.eqb (nt_url tab) "about:blank"),
      (nt_goto tab) as [[]|?], (nt_close tab) as [[]|?],
      (nt_close_after_error tab) as [[]|?]; reflexivity.
  - destruct (nt_wait_load tab) as [[]|?], (String.eqb (nt_url tab) "about:blank"),
      (nt_goto tab) as [[]|?], (nt_close tab) as [[]|?],
      (nt_close_after_error tab) as [[]|?]; cbn; tauto.
Qed.

Lemma handle_new_page_closes_witness :
  In (SCall 146 TabClose)
     (strace (handle_new_page
                {| nt_is_main := false; nt_wait_load := Ok tt;
                   nt_url := "https://other.example/"; nt_goto := Raise "net::ERR_ABORTED";
                   nt_close := Ok tt; nt_close_after_error := Ok tt |})) \/
  In (SCall 151 TabClose)
     (strace (handle_new_page
                {| nt_is_main := false; nt_wait_load := Ok tt;
                   nt_url := "https://other.example/"; nt_goto := Raise "net::ERR_ABORTED";
                   nt_close := Ok tt; nt_close_after_error := Ok tt |})).
Proof.
  apply (proj2 (proj2 (handle_new_page_closes
           {| nt_is_main := false; nt_wait_load := Ok tt;
              nt_url := "https://other.example/"; nt_goto := Raise "net::ERR_ABORTED";
              nt_close := Ok tt; nt_close_after_error := Ok tt |}))).
  reflexivity.
Defined.

(** X22: The main page is sent to the URL of a new tab exactly when the tab is
    not the main page, it loaded within the timeout, and its URL is not
    about:blank. *)
Theorem handle_new_page_redirects tab line u :
  In (Ev (ECall line (Goto u))) (strace (handle_new_page tab)) <->
  line = 141%N /\ nt_is_main tab = false /\ nt_wait_load tab = Ok tt /\
  u = nt_url tab /\ u <> "about:blank".
Proof.
  unfold handle_new_page.
  destruct (nt_is_main tab).
  { cbn. split; [intros [H|[]]; discriminate | intros (_ & H & _); discriminate]. }
  destruct (nt_wait_load tab) as [[]|e0].
  - destruct (String.eqb_spec (nt_url tab) "about:blank") as [Hb|Hb].
    + destruct (nt_close tab) as [[]|?], (nt_close_after_error tab) as [[]|?];
        cbn; (split; [intros H; repeat (destruct H as [H|H]; try discriminate); done
                     | intros (_ & _ & _ & -> & Hne); done]).
    + destruct (nt_goto tab) as [[]|?], (nt_close tab) as [[]|?],
        (nt_close_after_error tab) as [[]|?];
        cbn; (split; [intros H; repeat (destruct H as [H|H]; try discriminate); try done;
                      injection H as <- <-; repeat split; auto
                     | intros (-> & _ & _ & -> & _); do 4 right; by left]).
  - destruct (nt_close_after_error tab) as [[]|?];
      cbn; (split; [intros H; repeat (destruct H as [H|H]; try discriminate); done
                   | intros (_ & _ & H & _); discriminate]).
Qed.

Lemma handle_new_page_redirects_witness :
  In (Ev (ECall 141 (Goto "https://other.example/")))
     (strace (handle_new_page
                {| nt_is_main := false; nt_wait_load := Ok tt;
                   nt_url := "https://other.example/"; nt_goto := Ok tt;
                   nt_close := Ok tt; nt_close_after_error := Ok tt |})).
Proof.
  apply (proj2 (handle_new_page_redirects
                  {| nt_is_main := false; nt_wait_load := Ok tt;
                     nt_url := "https://other.example/"; nt_goto := Ok tt;
                     nt_close := Ok tt; nt_close_after_error := Ok tt |}
                  141 "https://other.example/")).
  repeat split; discriminate.
Defined.

Lemma take_chars_length n s : (String.length (take_chars n s) <= n)%nat.
Proof.
  revert s. induction n as [|n IH]; intros s; [simpl; lia|].
  destruct s as [|a s]; simpl; [lia|]. specialize (IH s). lia.
Qed.

Lemma log_response_status_unfold flag r :
  log_response_status flag r
  = (slog (nl +:+ "==== RESPONSE STATUS ====");;;
     slog ("URL: " +:+ rs_url r);;;
     slog ("Status Code: " +:+ pretty (rs_status r) +:+ " " +:+ rs_status_text r);;;
     detected ⇐
       (if rs_status r =? 302 then
          let location := default "" (rs_headers r !! "location") in
          if nonempty location && contains "amazoncognito" location then
            slog ("Amazon Cognito redirect detected (302 to Cognito URL: "
                  +:+ location +:+ ")");;;
            sess_ret true
          else sess_ret flag
        else sess_ret flag);
     (if 400 <=? rs_status r then
        slog ("ERROR: Response code " +:+ pretty (rs_status r) +:+ " indicates an error");;;
        sess_try
          (body ⇐ scall 188 ResponseText (rs_text r);
           if nonempty body then
             slog ("Error response (truncated): " +:+ take_chars 500 body);;;
             if (500 <? String.length body)%nat then slog "... (response truncated)"
             else sess_ret tt
           else sess_ret tt)
          (fun e => slog ("Could not retrieve error response body: " +:+ e))
      else sess_ret tt);;;
     sess_ret detected).
Proof. reflexivity. Qed.

(** X23: The response listener never raises, and it only ever sets the Cognito
    flag: the flag is on afterwards exactly when it was on before or the
    response is a 302 whose location header contains "amazoncognito". *)
Theorem log_response_status_flag flag r :
  sresult (log_response_status flag r)
  = Ok (flag || ((rs_status r =? 302)
                 && contains "amazoncognito" (default "" (rs_headers r !! "location")))).
Proof.
  rewrite log_response_status_unfold.
  set (location := default "" (rs_headers r !! "location")).
  assert (nonempty location && contains "amazoncognito" location
          = contains "amazoncognito" location) as Hloc
    by (destruct location; reflexivity).
  cbv zeta. fold location. rewrite Hloc.
  destruct (rs_status r =? 302), (contains "amazoncognito" location),
    (400 <=? rs_status r), (rs_text r) as [[|a body]|e];
    cbn -[Nat.ltb String.length take_chars];
    try destruct (500 <? String.length (String a body))%nat;
    cbn; by rewrite ?orb_true_r, ?orb_false_r.
Qed.

(** X24: The body of a response is fetched only for an error status; of a
    non-empty body at most the first 500 characters are logged, followed by
    a truncation notice exactly when the body is longer than that. *)
Theorem log_response_status_truncates flag r :
  (rs_status r < 400 -> ~ In (SCall 188 ResponseText) (strace (log_response_status flag r)))
  /\ (forall body,
        400 <= rs_status r -> rs_text r = Ok body -> body <> "" ->
        In (Ev (ELog ("Error response (truncated): " +:+ take_chars 500 body)))
           (strace (log_response_status flag r)) /\
        (String.length (take_chars 500 body) <= 500)%nat /\
        (In (Ev (ELog "... (response truncated)")) (strace (log_response_status flag r))
         <-> (500 < String.length body)%nat)).
Proof.
  rewrite log_response_status_unfold.
  set (location := default "" (rs_headers r !! "location")). cbv zeta. fold location.
  split.
  - intros Hlt. destruct (Z.leb_spec 400 (rs_status r)) as [Hge|_]; [lia|].
    destruct (rs_status r =? 302), (nonempty location && contains "amazoncognito" location);
      cbn; intros H; repeat (destruct H as [H|H]; try discriminate); done.
  - intros body Hge Hbody Hne. rewrite Hbody.
    destruct (Z.leb_spec 400 (rs_status r)) as [_|Hlt]; [|lia].
    destruct body as [|a body]; [done|]. cbn [nonempty].
    split; [|split; [apply take_chars_length|]].
    + destruct (rs_status r =? 302), (nonempty location && contains "amazoncognito" location);
        cbn -[Nat.ltb String.length take_chars];
        destruct (500 <? String.length (String a body))%nat;
        cbn -[Nat.ltb String.length take_chars]; tauto.
    + destruct (rs_status r =? 302),
        (nonempty location && contains "amazoncognito" location);
        cbn -[Nat.ltb String.length take_chars];
        destruct (Nat.ltb_spec 500 (String.length (String a body))) as [Hlong|Hshort];
        cbn -[Nat.ltb String.length take_chars];
        (split; [intros H | intros H; first [tauto | lia]]);
        try done;
        repeat (destruct H as [H|H]; [exfalso; str_simpl; discriminate|]); try done.
Qed.

Lemma log_response_status_truncates_witness :
  In (Ev (ELog ("Error response (truncated): " +:+ take_chars 500 "Not Found")))
     (strace (log_response_status false
                {| rs_status := 404; rs_status_text := "Not Found";
                   rs_url := "https://app.example/x"; rs_headers := ∅;
                   rs_text := Ok "Not Found" |})) /\
  (String.length (take_chars 500 "Not Found") <= 500)%nat /\
  (In (Ev (ELog "... (response truncated)"))
      (strace (log_response_status false
                 {| rs_status := 404; rs_status_text := "Not Found";
                    rs_url := "https://app.example/x"; rs_headers := ∅;
                    rs_text := Ok "Not Found" |}))
   <-> (500 < String.length "Not Found")%nat).
Proof.
  apply (proj2 (log_response_status_truncates false
                  {| rs_status := 404; rs_status_text := "Not Found";
                     rs_url := "https://app.example/x"; rs_headers := ∅;
                     rs_text := Ok "Not Found" |}) "Not Found");
    [cbn; lia | reflexivity | discriminate].
Defined.

(** ** Start-up and the session as a whole *)

Lemma sresult_bind {A B} (m : Sess A) (f : A -> Sess B) :
  sresult (sess_bind m f)
  = match sresult m with
    | Ok a => sresult (f a)
    | Raise e => Raise e
    end.
Proof.
  destruct m as [tr [a|e]]; [|reflexivity].
  unfold sess_bind, sresult. cbn [snd]. by destruct (f a).
Qed.

Lemma strace_bind {A B} (m : Sess A) (f : A -> Sess B) :
  strace (sess_bind m f)
  = strace m ++ match sresult m with
                | Ok a => strace (f a)
                | Raise _ => []
                end.
Proof.
  destruct m as [tr [a|e]]; unfold sess_bind, strace, sresult; cbn [fst snd].
  - by destruct (f a).
  - by rewrite app_nil_r.
Qed.

Lemma sresult_finally {A} (m : Sess A) cleanup :
  sresult (sess_finally m cleanup) = sresult m.
Proof. reflexivity. Qed.

Lemma strace_finally {A} (m : Sess A) cleanup :
  strace (sess_finally m cleanup) = strace m ++ cleanup.
Proof. reflexivity. Qed.

Lemma not_in_lifted line o tr : ~ In (SCall line o) (map Ev tr).
Proof. by intros (e & He & _)%in_map_iff. Qed.

Lemma startup_result json_dumps cfg creds initial_pause env cs :
  su_goto env = Ok tt ->
  su_cookies env = Ok cs ->
  result (startup json_dumps cfg creds initial_pause env)
  = Ok (cs, if succeeded (su_goto_after_pause env) then browse_duration cfg else 0).
Proof.
  intros Hgoto Hcs. unfold startup.
  rewrite !result_bind. cbn [result log snd]. rewrite result_call, Hgoto.
  assert (result (if su_cognito_redirect_detected env
                  then log "Handling Cognito login after redirect was detected";;
                       handle_cognito_login creds (su_login env)
                  else mret tt) = Ok tt) as ->.
  { destruct (su_cognito_redirect_detected env); [|done].
    rewrite result_bind. cbn [result log snd]. apply handle_cognito_login_result. }
  rewrite result_call, Hcs. unfold call, log, print, sleep.
  destruct (su_wait_load env) as [[]|?], (su_reload env) as [[]|?],
    (su_wait_networkidle env) as [[]|?], (su_goto_current env) as [[]|?],
    (su_request_headers env) as [h|], (su_goto_after_pause env) as [[]|?];
    try destruct (bool_decide (h = ∅)); reflexivity.
Qed.



Lemma browse_and_track_cookies_unfold json_dumps cfg creds initial_pause env :
  browse_and_track_cookies json_dumps cfg creds initial_pause env
  = sess_bind (scall 109 StartPlaywright (se_start env)) (fun _ =>
    sess_finally
      (sess_bind (scall 111 (Launch false) (se_launch env)) (fun _ =>
       sess_bind (scall 114 NewContext (se_new_context env)) (fun _ =>
       sess_bind (scall 121 NewPage (se_new_page env)) (fun _ =>
       sess_bind (scall 157 (On "context" "page" "handle_new_page") (Ok tt)) (fun _ =>
       sess_bind (scall 204 (On "page" "response" "log_response_status") (Ok tt)) (fun _ =>
       sess_bind (lift (startup json_dumps cfg creds initial_pause (se_startup env)))
         (fun started =>
          let '(initial_cookies, duration) := started in
          let start_time := se_start_time env in
          let clk := {| last_refresh_time := start_time;
                        last_return_time := start_time;
                        last_cookie_mod_time := start_time |} in
          let cfg' := {| url := url cfg; browse_duration := duration;
                         refresh_interval := refresh_interval cfg;
                         return_interval := return_interval cfg;
                         cookie_mod_interval := cookie_mod_interval cfg |} in
          sess_bind (lift (browse_loop json_dumps cfg' creds initial_cookies start_time
                             clk (se_ticks env)))
            (fun ending =>
               match ending with
               | DurationElapsed =>
                   sess_bind (scall 633 CloseBrowser (se_close env)) (fun _ =>
                   sess_bind (slog (nl +:+ "==== BROWSING SESSION COMPLETE ===="))
                     (fun _ => sess_ret DurationElapsed))
               | TicksExhausted => sess_ret TicksExhausted
               end))))))))
      [SCall 109 StopPlaywright]).
Proof. reflexivity. Qed.




(** X26: When the return to the start page after the initial pause fails, the
    browsing duration becomes 0: with a clock that has not run backwards
    the session performs start-up only, then closes the browser and logs
    the completion banner without a single browsing iteration. *)
Theorem return_failure_skips_browsing json_dumps cfg creds initial_pause env cs e t rest :
  se_start env = Ok tt -> se_launch env = Ok tt ->
  se_new_context env = Ok tt -> se_new_page env = Ok tt ->
  se_close env = Ok tt ->
  su_goto (se_startup env) = Ok tt ->
  su_cookies (se_startup env) = Ok cs ->
  su_goto_after_pause (se_startup env) = Raise e ->
  se_ticks env = t :: rest ->
  se_start_time env <= t_time_check t ->
  browse_and_track_cookies json_dumps cfg creds initial_pause env
  = ([ SCall 109 StartPlaywright; SCall 111 (Launch false); SCall 114 NewContext;
       SCall 121 NewPage; SCall 157 (On "context" "page" "handle_new_page");
       SCall 204 (On "page" "response" "log_response_status") ]
     ++ map Ev (trace (startup json_dumps cfg creds initial_pause (se_startup env)))
     ++ [ SCall 633 CloseBrowser;
          Ev (ELog (nl +:+ "==== BROWSING SESSION COMPLETE ===="));
          SCall 109 StopPlaywright ],
     Ok DurationElapsed).
Proof.
  intros Hstart Hlaunch Hctx Hpage Hclose Hgoto Hcs Hret Hticks Htime.
  pose proof (startup_result json_dumps cfg creds initial_pause (se_startup env) cs
                Hgoto Hcs) as Hres.
  rewrite Hret in Hres. cbn [succeeded] in Hres.
  rewrite browse_and_track_cookies_unfold.
  rewrite Hstart, Hlaunch, Hctx, Hpage, Hclose, Hticks.
  destruct (startup json_dumps cfg creds initial_pause (se_startup env)) as [trs r].
  cbn [result snd] in Hres. subst r.
  cbn [sess_bind scall lift trace result fst snd].
  rewrite browse_loop_zero_duration by (cbn; lia).
  cbn. by rewrite <- app_assoc.
Qed.

Lemma return_failure_skips_browsing_witness :
  browse_and_track_cookies sample_json_dumps sample_config sample_creds 15
    (sample_session_env (sample_startup_env (Ok tt) (Raise "Timeout 30000ms exceeded."))
       [sample_tick 1 (Ok [])])
  = ([ SCall 109 StartPlaywright; SCall 111 (Launch false); SCall 114 NewContext;
       SCall 121 NewPage; SCall 157 (On "context" "page" "handle_new_page");
       SCall 204 (On "page" "response" "log_response_status") ]
     ++ map Ev (trace (startup sample_json_dumps sample_config sample_creds 15
                         (se_startup (sample_session_env
                            (sample_startup_env (Ok tt) (Raise "Timeout 30000ms exceeded."))
                            [sample_tick 1 (Ok [])]))))
     ++ [ SCall 633 CloseBrowser;
          Ev (ELog (nl +:+ "==== BROWSING SESSION COMPLETE ===="));
          SCall 109 StopPlaywright ],
     Ok DurationElapsed).
Proof.
  apply (return_failure_skips_browsing sample_json_dumps sample_config sample_creds 15
           (sample_session_env (sample_startup_env (Ok tt) (Raise "Timeout 30000ms exceeded."))
              [sample_tick 1 (Ok [])])
           [theme_session] "Timeout 30000ms exceeded." (sample_tick 1 (Ok [])) []);
    try reflexivity.
  cbn. lia.
Defined.

(** X27: The automation library is stopped on every path once it was started,
    but [browser.close()] is not in a [finally]: when an exception escapes,
    the browser was never asked to close. *)
Theorem session_cleanup json_dumps cfg creds initial_pause env :
  se_start env = Ok tt ->
  (exists before,
      strace (browse_and_track_cookies json_dumps cfg creds initial_pause env)
      = before ++ [SCall 109 StopPlaywright]) /\
  (forall e,
      sresult (browse_and_track_cookies json_dumps cfg creds initial_pause env) = Raise e ->
      se_close env = Ok tt ->
      ~ In (SCall 633 CloseBrowser)
           (strace (browse_and_track_cookies json_dumps cfg creds initial_pause env))).
Proof.
  intros Hstart. rewrite browse_and_track_cookies_unfold, Hstart.
  rewrite strace_bind, sresult_bind. cbn [scall strace sresult fst snd].
  rewrite strace_finally, sresult_finally.
  split; [eexists; by rewrite app_assoc|].
  intros e Hraise Hclose. rewrite Hclose in *.
  revert Hraise. rewrite !strace_bind, !sresult_bind.
  cbn [scall strace sresult fst snd].
  destruct (se_launch env) as [[]|?]; [|intros _ H; cbn in H; intuition discriminate].
  destruct (se_new_context env) as [[]|?]; [|intros _ H; cbn in H; intuition discriminate].
  destruct (se_new_page env) as [[]|?]; [|intros _ H; cbn in H; intuition discriminate].
  cbn [lift strace sresult fst snd].
  destruct (result (startup json_dumps cfg creds initial_pause (se_startup env)))
    as [[cs d]|?].
  - rewrite strace_bind, sresult_bind. cbn [lift strace sresult fst snd].
    match goal with
    | |- context [result ?loop] => destruct (result loop) as [[]|?]
    end; [discriminate| |];
      intros _ H; cbn in H; rewrite ?app_nil_r in H;
      repeat (destruct H as [H|H]; try discriminate);
      repeat (apply in_app_or in H as [H|H]; try (by apply not_in_lifted in H));
      repeat (destruct H as [H|H]; try discriminate); done.
  - intros _ H; cbn in H; rewrite ?app_nil_r in H;
      repeat (destruct H as [H|H]; try discriminate);
      repeat (apply in_app_or in H as [H|H]; try (by apply not_in_lifted in H));
      repeat (destruct H as [H|H]; try discriminate); done.
Qed.

Lemma session_cleanup_witness :
  (exists before,
      strace (browse_and_track_cookies sample_json_dumps sample_config sample_creds 15
                (sample_session_env (sample_startup_env (Ok tt) (Ok tt))
                   [sample_tick 10 (Raise "Target closed")]))
      = before ++ [SCall 109 StopPlaywright]) /\
  ~ In (SCall 633 CloseBrowser)
       (strace (browse_and_track_cookies sample_json_dumps sample_config sample_creds 15
                  (sample_session_env (sample_startup_env (Ok tt) (Ok tt))
                     [sample_tick 10 (Raise "Target closed")]))).
Proof.
  destruct (session_cleanup sample_json_dumps sample_config sample_creds 15
              (sample_session_env (sample_startup_env (Ok tt) (Ok tt))
                 [sample_tick 10 (Raise "Target closed")]) eq_refl) as [Hstop Hclose].
  split; [exact Hstop|].
  apply (Hclose "Target closed"); reflexivity.
Defined.
